(** * The S3 lab notebook (DE/C2_W1_Lab_3_S3.ipynb), embedded and verified

    The notebook defines nine small functions over a boto3 S3 client and a
    few driver cells.  The functions are embedded below as computations in
    a state-and-exception monad over an arbitrary implementation of the
    client ([Service]); statements about the requests a function issues,
    about what it prints and about which exceptions leave it are proved for
    every such implementation.  Statements that depend on what the storage
    service does with a request are settled against [RefS3], a reference
    model of the service. *)

From stdpp Require Import base strings list gmap pretty sorting.

Set Default Proof Using "Type".
#[local] Set Warnings "-register-all".

(** ** Python values the notebook handles *)

(** What a Python call can raise.  [Error] stands for the instances of
    [Exception] (botocore's ClientError, boto3's S3UploadFailedError,
    FileNotFoundError, ...), [Interrupt] for the exceptions that derive from
    [BaseException] only (KeyboardInterrupt, SystemExit): a clause
    [except Exception as e] handles the former and lets the latter pass. *)
Inductive exn : Type :=
  | Error (cls msg : string)
  | Interrupt (cls msg : string).

(** [str(e)], as interpolated by [f"...{e}"]. *)
Definition str_exn (e : exn) : string :=
  match e with Error _ msg | Interrupt _ msg => msg end.

(** [str(b)] for a Python bool. *)
Definition str_bool (b : bool) : string := if b then "True" else "False".

Inductive result (A : Type) : Type :=
  | Ok (a : A)
  | Raise (e : exn).
Arguments Ok {A} a.
Arguments Raise {A} e.

(** ** The boto3 S3 client interface *)

(** A client object; [boto3.client('s3', region_name=r)] binds it to a
    region, [boto3.client('s3')] leaves the region to the ambient
    configuration. *)
Record client : Type := Client { region_name : option string }.

(** The [ResponseMetadata] entry that every response dictionary carries. *)
Record ResponseMetadata : Type := { HTTPStatusCode : nat }.

(** The dictionary passed as [PublicAccessBlockConfiguration]. *)
Record PublicAccessBlockConfiguration : Type := {
  BlockPublicAcls : bool;
  IgnorePublicAcls : bool;
  BlockPublicPolicy : bool;
  RestrictPublicBuckets : bool
}.

(** The dictionary passed as [VersioningConfiguration]. *)
Record VersioningConfiguration : Type := { Status : string }.

(** JSON-shaped Python values, as the bucket policy is and as
    [json.loads] returns them; a number with a fraction is kept as the
    text that stands for it. *)
Inductive json : Type :=
  | JNull
  | JBool (b : bool)
  | JInt (z : Z)
  | JFloat (digits : string)
  | JStr (s : string)
  | JList (l : list json)
  | JDict (d : list (string * json)).

(** An element of [response['Contents']]. *)
Record ObjectSummary : Type := { obj_Key : string }.

(** An element of [response['Versions']]; [LastModified] is kept as the
    text [print] shows for it. *)
Record ObjectVersion : Type := {
  Key : string;
  VersionId : string;
  IsLatest : bool;
  LastModified : string
}.

(** An element of [response['DeleteMarkers']]. *)
Record DeleteMarkerEntry : Type := {
  dm_Key : string;
  dm_VersionId : string;
  dm_IsLatest : bool;
  dm_LastModified : string
}.

(** The response of [list_objects_v2]; the key ['Contents'] is absent when
    nothing matches. *)
Record ListObjectsV2Output : Type := {
  Contents : option (list ObjectSummary);
  lo_IsTruncated : bool
}.

(** The response of [list_object_versions]; the keys ['Versions'] and
    ['DeleteMarkers'] are absent when the page has none of them. *)
Record ListObjectVersionsOutput : Type := {
  Versions : option (list ObjectVersion);
  DeleteMarkers : option (list DeleteMarkerEntry);
  IsTruncated : bool
}.

(** The method calls the notebook makes on the client, each a request to
    the service, with the keyword arguments that matter below; an argument
    that a call leaves out is [None]. *)
Inductive request : Type :=
  | CreateBucket (Bucket : string) (LocationConstraint : option string)
  | UploadFile (Filename Bucket Key : string)
  | DownloadFile (Bucket Key Filename : string)
  | PutPublicAccessBlock (Bucket : string) (cfg : PublicAccessBlockConfiguration)
  | PutBucketPolicy (Bucket Policy : string)
  | PutBucketVersioning (Bucket : string) (cfg : VersioningConfiguration)
  | ListObjectsV2 (Bucket : string) (Prefix : option string)
  | ListObjectVersions (Bucket : string) (Prefix : option string)
  | DeleteObject (Bucket Key : string) (VersionId : option string)
  | DeleteBucket (Bucket : string).

(** An implementation of the client: the state it acts on (the remote
    service and the local files that [upload_file] and [download_file]
    touch) and one handler per method.  A handler returns the response or
    the exception raised, and the state the call leaves behind.
    [svc_open_read] is what [open(path, 'r')] and [read()] give on these
    local files. *)
Record Service : Type := {
  sstate : Type;
  svc_client : option string → sstate → result client;
  svc_open_read : string → sstate → result string * sstate;
  svc_create_bucket :
    client → string → option string → sstate → result ResponseMetadata * sstate;
  svc_upload_file :
    client → string → string → string → sstate → result unit * sstate;
  svc_download_file :
    client → string → string → string → sstate → result unit * sstate;
  svc_put_public_access_block :
    client → string → PublicAccessBlockConfiguration → sstate →
    result ResponseMetadata * sstate;
  svc_put_bucket_policy :
    client → string → string → sstate → result ResponseMetadata * sstate;
  svc_put_bucket_versioning :
    client → string → VersioningConfiguration → sstate →
    result ResponseMetadata * sstate;
  svc_list_objects_v2 :
    client → string → option string → sstate →
    result ListObjectsV2Output * sstate;
  svc_list_object_versions :
    client → string → option string → sstate →
    result ListObjectVersionsOutput * sstate;
  svc_delete_object :
    client → string → string → option string → sstate →
    result ResponseMetadata * sstate;
  svc_delete_bucket :
    client → string → sstate → result ResponseMetadata * sstate
}.

(** ** The interpreter state and its monad *)

(** What a run can observe: the state of the service, the lines printed so
    far, and the requests issued so far, each with the client that sent it
    (the last is a record kept for the statements, the code cannot read
    it). *)
Record world (S : Type) : Type := World {
  remote : S;
  stdout : list string;
  issued : list (client * request)
}.
Arguments World {S} remote stdout issued.
Arguments remote {S} w.
Arguments stdout {S} w.
Arguments issued {S} w.

(** A Python computation: it ends in a value or in a raised exception, and
    what it did to the world before raising stays done. *)
Definition M (S A : Type) : Type := world S → result A * world S.

Definition ret {S A} (a : A) : M S A := λ w, (Ok a, w).

Definition bind {S A B} (m : M S A) (k : A → M S B) : M S B :=
  λ w, match m w with
       | (Ok a, w') => k a w'
       | (Raise e, w') => (Raise e, w')
       end.

Declare Scope py_scope.
Delimit Scope py_scope with py.
Notation "x <- m ;; k" := (bind m (λ x, k))
  (at level 100, m at next level, right associativity) : py_scope.
Notation "m ;; k" := (bind m (λ _, k))
  (at level 100, right associativity) : py_scope.
Local Open Scope py_scope.

(** [print(line)]. *)
Definition print {S} (line : string) : M S unit :=
  λ w, (Ok tt, World (remote w) (stdout w ++ [line]) (issued w)).

(** [try: body / except Exception as e: handler(e)]. *)
Definition try_except_Exception {S A} (body : M S A) (handler : exn → M S A)
  : M S A :=
  λ w, match body w with
       | (Raise (Error cls msg), w') => handler (Error cls msg) w'
       | r => r
       end.

(** [for x in l: body(x)]. *)
Fixpoint for_in {S A} (l : list A) (body : A → M S unit) : M S unit :=
  match l with
  | [] => ret tt
  | x :: l' => body x;; for_in l' body
  end.

(** The requests of a log, without the clients. *)
Definition requests (log : list (client * request)) : list request := log.*2.

(** ** The notebook's functions *)

Section Notebook.
Context (svc : Service).

(** [json.dumps] of the Python standard library, which the notebook
    imports; it is taken as given. *)
Variable json_dumps : json → string.

Local Abbreviation Py := (M (sstate svc)).

(** [boto3.client('s3', region_name=region)]: no request is sent. *)
Definition boto3_client (region : option string) : Py client :=
  λ w, (svc_client svc region (remote w), w).

(** A method call on the client: the request is recorded, the handler
    runs on the service state. *)
Definition invoke {A} (c : client) (r : request)
    (h : sstate svc → result A * sstate svc) : Py A :=
  λ w, let '(res, s') := h (remote w) in
       (res, World s' (stdout w) (issued w ++ [(c, r)])).

(** [with open(path, 'r') as file: file.read()]: the local files are
    read, no request is sent. *)
Definition open_read (path : string) : Py string :=
  λ w, let '(res, s') := svc_open_read svc path (remote w) in
       (res, World s' (stdout w) (issued w)).

(** The client's methods, with the keyword arguments the notebook passes.
    The method [list_object_versions] is [client_list_object_versions]
    here: the notebook gives its own function that name. *)
Definition create_bucket (c : client) (Bucket : string) :=
  invoke c (CreateBucket Bucket None) (svc_create_bucket svc c Bucket None).
Definition upload_file (c : client) (Filename Bucket Key : string) :=
  invoke c (UploadFile Filename Bucket Key)
         (svc_upload_file svc c Filename Bucket Key).
Definition download_file (c : client) (Bucket Key Filename : string) :=
  invoke c (DownloadFile Bucket Key Filename)
         (svc_download_file svc c Bucket Key Filename).
Definition put_public_access_block (c : client) (Bucket : string)
    (cfg : PublicAccessBlockConfiguration) :=
  invoke c (PutPublicAccessBlock Bucket cfg)
         (svc_put_public_access_block svc c Bucket cfg).
Definition put_bucket_policy (c : client) (Bucket Policy : string) :=
  invoke c (PutBucketPolicy Bucket Policy)
         (svc_put_bucket_policy svc c Bucket Policy).
Definition put_bucket_versioning (c : client) (Bucket : string)
    (cfg : VersioningConfiguration) :=
  invoke c (PutBucketVersioning Bucket cfg)
         (svc_put_bucket_versioning svc c Bucket cfg).
Definition list_objects_v2 (c : client) (Bucket : string)
    (Prefix : option string) :=
  invoke c (ListObjectsV2 Bucket Prefix)
         (svc_list_objects_v2 svc c Bucket Prefix).
Definition client_list_object_versions (c : client) (Bucket : string)
    (Prefix : option string) :=
  invoke c (ListObjectVersions Bucket Prefix)
         (svc_list_object_versions svc c Bucket Prefix).
Definition delete_object (c : client) (Bucket Key : string)
    (VersionId : option string) :=
  invoke c (DeleteObject Bucket Key VersionId)
         (svc_delete_object svc c Bucket Key VersionId).
Definition delete_bucket (c : client) (Bucket : string) :=
  invoke c (DeleteBucket Bucket) (svc_delete_bucket svc c Bucket).

(** Cell 3. *)
Definition create_s3_bucket (bucket_name region : string) : Py unit :=
  s3_client <- boto3_client (Some region);;
  try_except_Exception
    (create_bucket s3_client bucket_name;;
     print ("S3 bucket '" +:+ bucket_name +:+
            "' created successfully in region '" +:+ region +:+ "'."))
    (λ e, print ("An error occurred: " +:+ str_exn e)).

(** Cell 7. *)
Definition upload_file_to_s3 (local_file_path bucket_name object_key : string)
  : Py unit :=
  s3_client <- boto3_client None;;
  try_except_Exception
    (upload_file s3_client local_file_path bucket_name object_key;;
     print ("File " +:+ local_file_path +:+ " uploaded to s3://" +:+
            bucket_name +:+ "/" +:+ object_key +:+ " successfully."))
    (λ e, print ("Error uploading file to S3: " +:+ str_exn e)).

(** Cell 12. *)
Definition download_object_from_s3
    (bucket_name object_key local_file_path : string) : Py unit :=
  s3_client <- boto3_client None;;
  try_except_Exception
    (download_file s3_client bucket_name object_key local_file_path)
    (λ e, print ("Error downloading or printing JSON file: " +:+ str_exn e)).

(** Cell 15. *)
Definition s3_public_access_setup (bucket_name : string)
    (public_access_block_configuration : PublicAccessBlockConfiguration)
  : Py unit :=
  s3_client <- boto3_client None;;
  put_public_access_block s3_client bucket_name
                          public_access_block_configuration;;
  ret tt.

(** Cell 17. *)
Definition s3_put_bucket_policy (bucket_name : string) (policy : json)
  : Py ResponseMetadata :=
  s3_client <- boto3_client None;;
  response <- put_bucket_policy s3_client bucket_name (json_dumps policy);;
  ret response.

(** The cell that defines [configure_bucket_versioning]. *)
Definition configure_bucket_versioning (bucket_name : string)
    (versioning_config : VersioningConfiguration) : Py ResponseMetadata :=
  s3_client <- boto3_client None;;
  response <- put_bucket_versioning s3_client bucket_name versioning_config;;
  ret response.

(** The cell that defines [list_objects_in_folder]. *)
Definition list_objects_in_folder (bucket_name prefix_key : string)
  : Py unit :=
  s3_client <- boto3_client None;;
  response <- list_objects_v2 s3_client bucket_name (Some prefix_key);;
  match Contents response with
  | Some contents =>
      print ("Objects with a key that starts with '" +:+ prefix_key +:+ "':");;
      for_in contents (λ obj, print (obj_Key obj))
  | None =>
      print ("No objects found in folder '" +:+ prefix_key +:+ "'.")
  end.

(** The body of the loop of [list_object_versions]. *)
Definition print_version (version : ObjectVersion) : Py unit :=
  print ("Object Key: " +:+ Key version);;
  print ("Object Version Id: " +:+ VersionId version);;
  print ("Is Latest: " +:+ str_bool (IsLatest version));;
  print ("Last Modified: " +:+ LastModified version);;
  print "".

(** The cell that defines [list_object_versions]. *)
Definition list_object_versions (bucket_name prefix_key : string)
  : Py unit :=
  s3_client <- boto3_client None;;
  response <- client_list_object_versions s3_client bucket_name
                                          (Some prefix_key);;
  for_in (default [] (Versions response)) print_version.

(** The cell that defines [s3_delete_bucket]. *)
Definition s3_delete_bucket (bucket_name : string) (delete_objects : bool)
  : Py ResponseMetadata :=
  s3_client <- boto3_client None;;
  (if delete_objects then
     response <- client_list_object_versions s3_client bucket_name None;;
     for_in (default [] (Versions response)) (λ version,
       let key := Key version in
       let version_id := VersionId version in
       delete_object s3_client bucket_name key (Some version_id);;
       ret tt);;
     for_in (default [] (DeleteMarkers response)) (λ delete_marker,
       let key := dm_Key delete_marker in
       let version_id := dm_VersionId delete_marker in
       delete_object s3_client bucket_name key (Some version_id);;
       ret tt)
   else ret tt);;
  response <- delete_bucket s3_client bucket_name;;
  ret response.

(** Cell 2. *)
Definition BUCKET_NAME : string := "de-c2w1lab3-730073446073".
Definition AWS_DEFAULT_REGION : string := "us-east-1".

(** Cell 10: the JSON upload. *)
Definition local_file_path_json : string :=
  "data/json/delivery-stream-one-record.json".
Definition object_key_json : string :=
  "json/json/delivery-stream-one-record.json".
Definition cell_10 : Py unit :=
  upload_file_to_s3 local_file_path_json BUCKET_NAME object_key_json.

(** Cell 16 and the versioning cell: the configurations the notebook
    passes. *)
Definition public_access_configuration : PublicAccessBlockConfiguration :=
  {| BlockPublicAcls := false; IgnorePublicAcls := false;
     BlockPublicPolicy := false; RestrictPublicBuckets := false |}.
Definition versioning_config : VersioningConfiguration :=
  {| Status := "Enabled" |}.

End Notebook.

(** ** Sorting by key *)

Section Sort.
Context {A : Type} (key : A → string).

(** The service lists keys in the lexicographic order of their bytes,
    [String.le]. *)
Fixpoint insert_by (x : A) (l : list A) : list A :=
  match l with
  | [] => [x]
  | y :: l' =>
      if decide (String.le (key x) (key y)) then x :: l
      else y :: insert_by x l'
  end.

(** Insertion sort; elements with equal keys keep their order. *)
Definition sort_by (l : list A) : list A := foldr insert_by [] l.

(** The order of the keys, on the elements. *)
Definition key_le (x y : A) : Prop := String.le (key x) (key y).
End Sort.

(** ** A reference model of the storage service *)

(** Modelled from the spec: the storage service behind the client, and the
    client in front of it, neither of which is part of the repository.
    The model follows the data model of section 3 (buckets, objects,
    versions, delete markers), the operations of section 4.1 and the error
    taxonomy of section 7; it is an instance of [Service], so that the
    notebook's functions run on it. *)
Module RefS3.

(** Modelled from the spec: the versioning status of a bucket, the flag
    [Unversioned → Enabled → Suspended] of section 4.1; the service is not
    part of the repository. *)
Inductive versioning : Type := Unversioned | Enabled | Suspended.

(** Modelled from the spec: an ObjectVersion of section 3, a payload
    snapshot for a key with its version id and last-modified time, or a
    delete marker ([e_marker]), the pseudo-version that hides a key. *)
Record entry : Type := Entry {
  e_key : string;
  e_vid : string;
  e_marker : bool;
  e_body : string;
  e_time : nat
}.

(** Modelled from the spec: a Bucket of section 3, with its versioning
    status, its versions and delete markers (newest first), its
    public-access block and its policy. *)
Record bucket : Type := Bucket {
  b_versioning : versioning;
  b_entries : list entry;
  b_access : option PublicAccessBlockConfiguration;
  b_policy : option string
}.

(** Modelled from the spec: what the client acts on, the local files by
    path (section 6), the buckets by name, a counter from which version
    ids and timestamps are drawn, and the local paths at which a write
    fails (the directory is missing, the path is a directory, the
    permission is denied). *)
Record state : Type := State {
  files : gmap string string;
  buckets : gmap string bucket;
  clock : nat;
  readonly : gset string
}.

Global Instance entry_eq_dec : EqDecision entry.
Proof. solve_decision. Defined.

(** A listing response carries at most 1000 entries and says with
    [IsTruncated] whether more remain: the page size of [list_objects_v2]
    and [list_object_versions] in the service's API, to which the notebook
    refers for both methods.  The spec is silent on it. *)
Definition max_keys : nat := 1000.

Definition ok (code : nat) : ResponseMetadata := {| HTTPStatusCode := code |}.
Definition client_error (code : string) : exn := Error "ClientError" code.

Definition with_buckets (s : state) (bs : gmap string bucket) : state :=
  State (files s) bs (clock s) (readonly s).

(** Modelled from the spec: "the write fails" of download_object
    (section 4.1); a file can be written at a path that is not empty and
    not among those at which a write fails. *)
Definition writable (s : state) (path : string) : bool :=
  bool_decide (path ≠ "" ∧ path ∉ readonly s).
Definition with_entries (b : bucket) (es : list entry) : bucket :=
  Bucket (b_versioning b) es (b_access b) (b_policy b).

(** The version id that stands for "no version". *)
Definition null : string := "null".

Definition names (k v : string) (e : entry) : bool :=
  bool_decide (e_key e = k ∧ e_vid e = v).

(** The newest entry of a key. *)
Definition latest (es : list entry) (k : string) : option entry :=
  head (filter (λ e, e_key e = k) es).

(** The key is visible: its newest entry is a version, not a marker. *)
Definition current (es : list entry) (k : string) : bool :=
  match latest es k with
  | Some e => negb (e_marker e)
  | None => false
  end.

Definition has_prefix (p : option string) (k : string) : bool :=
  String.prefix (default "" p) k.

(** Modelled from the spec: storing a payload under a key "creates a new
    version if versioning is enabled on the bucket, otherwise overwrites
    in place" (section 4.1, upload_object). *)
Definition put_object (b : bucket) (k body : string) (t : nat) : bucket :=
  match b_versioning b with
  | Enabled => with_entries b (Entry k (pretty t) false body t :: b_entries b)
  | _ =>
      with_entries b
        (Entry k null false body t ::
         filter (λ e, names k null e = false) (b_entries b))
  end.

(** Building a client never fails here. *)
Definition do_client (region : option string) (s : state) : result client :=
  Ok (Client region).

(** Modelled from the spec: create_bucket of section 4.1; a bucket is
    created empty, and a second call for a bucket the caller owns
    succeeds or fails with the region. *)
Definition do_create_bucket (c : client) (name : string)
    (loc : option string) (s : state) : result ResponseMetadata * state :=
  match buckets s !! name with
  | Some _ =>
      if bool_decide (default "us-east-1" (region_name c) = "us-east-1")
      then (Ok (ok 200), s)
      else (Raise (client_error "BucketAlreadyOwnedByYou"), s)
  | None =>
      (Ok (ok 200),
       with_buckets s (<[name := Bucket Unversioned [] None None]> (buckets s)))
  end.

(** Modelled from the spec: upload_object of section 4.1; it fails if the
    local path cannot be read or the remote call fails. *)
Definition do_upload_file (c : client) (filename name k : string)
    (s : state) : result unit * state :=
  match files s !! filename with
  | None => (Raise (Error "FileNotFoundError" filename), s)
  | Some body =>
      match buckets s !! name with
      | None => (Raise (Error "S3UploadFailedError" "NoSuchBucket"), s)
      | Some b =>
          (Ok tt,
           State (files s)
                 (<[name := put_object b k body (clock s)]> (buckets s))
                 (S (clock s)) (readonly s))
      end
  end.

(** Modelled from the spec: download_object of section 4.1; it retrieves
    the current (latest, non-deleted) version and writes it to the local
    path, and "fails if the key does not exist or the write fails"; a
    failed write leaves the local files as they were. *)
Definition do_download_file (c : client) (name k filename : string)
    (s : state) : result unit * state :=
  match buckets s !! name with
  | None => (Raise (client_error "NoSuchBucket"), s)
  | Some b =>
      match latest (b_entries b) k with
      | Some e =>
          if e_marker e then (Raise (client_error "404"), s)
          else if writable s filename then
            (Ok tt,
             State (<[filename := e_body e]> (files s)) (buckets s) (clock s)
                   (readonly s))
          else (Raise (Error "OSError" filename), s)
      | None => (Raise (client_error "404"), s)
      end
  end.

(** Modelled from the spec: the local files of section 6, read back as
    text; a path that holds no file cannot be opened. *)
Definition do_open_read (path : string) (s : state) : result string * state :=
  match files s !! path with
  | Some body => (Ok body, s)
  | None => (Raise (Error "FileNotFoundError" path), s)
  end.

(** Modelled from the spec: the three configuration calls of section 4.1
    replace a setting of an existing bucket. *)
Definition update_bucket (name : string) (f : bucket → bucket) (s : state)
  : result ResponseMetadata * state :=
  match buckets s !! name with
  | None => (Raise (client_error "NoSuchBucket"), s)
  | Some b => (Ok (ok 200), with_buckets s (<[name := f b]> (buckets s)))
  end.

Definition do_put_public_access_block (c : client) (name : string)
    (cfg : PublicAccessBlockConfiguration) : state → _ :=
  update_bucket name
    (λ b, Bucket (b_versioning b) (b_entries b) (Some cfg) (b_policy b)).

Definition do_put_bucket_policy (c : client) (name policy : string)
  : state → _ :=
  update_bucket name
    (λ b, Bucket (b_versioning b) (b_entries b) (b_access b) (Some policy)).

Definition do_put_bucket_versioning (c : client) (name : string)
    (cfg : VersioningConfiguration) (s : state)
  : result ResponseMetadata * state :=
  if bool_decide (Status cfg = "Enabled") then
    update_bucket name
      (λ b, Bucket Enabled (b_entries b) (b_access b) (b_policy b)) s
  else if bool_decide (Status cfg = "Suspended") then
    update_bucket name
      (λ b, Bucket Suspended (b_entries b) (b_access b) (b_policy b)) s
  else (Raise (client_error "MalformedXML"), s).

(** The visible keys of a bucket that start with the prefix, in key
    order. *)
Definition matching_keys (es : list entry) (p : option string)
  : list string :=
  sort_by id
    (filter (λ k, current es k = true ∧ has_prefix p k = true)
            (remove_dups (e_key <$> es))).

(** Modelled from the spec: list_objects of section 4.1, the current
    keys that start with the prefix, in lexicographic order, one page of
    them. *)
Definition do_list_objects_v2 (c : client) (name : string)
    (p : option string) (s : state) : result ListObjectsV2Output * state :=
  match buckets s !! name with
  | None => (Raise (client_error "NoSuchBucket"), s)
  | Some b =>
      let keys := matching_keys (b_entries b) p in
      let page := take max_keys keys in
      (Ok {| Contents :=
               if page is [] then None
               else Some ((λ k, {| obj_Key := k |}) <$> page);
             lo_IsTruncated := bool_decide (max_keys < length keys) |},
       s)
  end.

(** The versions and delete markers that start with the prefix, in key
    order, the newest first within a key. *)
Definition matching_entries (es : list entry) (p : option string)
  : list entry :=
  sort_by e_key (filter (λ e, has_prefix p (e_key e) = true) es).

Definition is_latest (es : list entry) (e : entry) : bool :=
  bool_decide (latest es (e_key e) = Some e).

Definition to_version (es : list entry) (e : entry) : ObjectVersion :=
  {| Key := e_key e; VersionId := e_vid e; IsLatest := is_latest es e;
     LastModified := pretty (e_time e) |}.

Definition to_marker (es : list entry) (e : entry) : DeleteMarkerEntry :=
  {| dm_Key := e_key e; dm_VersionId := e_vid e;
     dm_IsLatest := is_latest es e; dm_LastModified := pretty (e_time e) |}.

Definition nonempty {A} (l : list A) : option (list A) :=
  if l is [] then None else Some l.

(** Modelled from the spec: list_object_versions of section 4.1, the
    retained versions and the delete markers that start with the prefix,
    one page of them. *)
Definition do_list_object_versions (c : client) (name : string)
    (p : option string) (s : state)
  : result ListObjectVersionsOutput * state :=
  match buckets s !! name with
  | None => (Raise (client_error "NoSuchBucket"), s)
  | Some b =>
      let es := b_entries b in
      let all := matching_entries es p in
      let page := take max_keys all in
      (Ok {| Versions :=
               nonempty (to_version es <$>
                         filter (λ e, e_marker e = false) page);
             DeleteMarkers :=
               nonempty (to_marker es <$>
                         filter (λ e, e_marker e = true) page);
             IsTruncated := bool_decide (max_keys < length all) |},
       s)
  end.

(** Modelled from the spec: deleting a named version (or delete marker)
    removes that entry alone; deleting a key without naming a version
    leaves a delete marker in a versioned bucket (section 3). *)
Definition do_delete_object (c : client) (name k : string)
    (vid : option string) (s : state) : result ResponseMetadata * state :=
  match buckets s !! name with
  | None => (Raise (client_error "NoSuchBucket"), s)
  | Some b =>
      let es := b_entries b in
      let without v := filter (λ e, names k v e = false) es in
      let es' :=
        match vid with
        | Some v => without v
        | None =>
            match b_versioning b with
            | Enabled => Entry k (pretty (clock s)) true "" (clock s) :: es
            | Suspended => Entry k null true "" (clock s) :: without null
            | Unversioned => without null
            end
        end in
      (Ok (ok 204),
       State (files s) (<[name := with_entries b es']> (buckets s))
             (S (clock s)) (readonly s))
  end.

(** Modelled from the spec: "deleting a bucket requires zero remaining
    objects, versions, and delete markers" (section 3). *)
Definition do_delete_bucket (c : client) (name : string) (s : state)
  : result ResponseMetadata * state :=
  match buckets s !! name with
  | None => (Raise (client_error "NoSuchBucket"), s)
  | Some b =>
      if b_entries b is [] then
        (Ok (ok 204), with_buckets s (delete name (buckets s)))
      else (Raise (client_error "BucketNotEmpty"), s)
  end.

Definition service : Service := {|
  sstate := state;
  svc_client := do_client;
  svc_open_read := do_open_read;
  svc_create_bucket := do_create_bucket;
  svc_upload_file := do_upload_file;
  svc_download_file := do_download_file;
  svc_put_public_access_block := do_put_public_access_block;
  svc_put_bucket_policy := do_put_bucket_policy;
  svc_put_bucket_versioning := do_put_bucket_versioning;
  svc_list_objects_v2 := do_list_objects_v2;
  svc_list_object_versions := do_list_object_versions;
  svc_delete_object := do_delete_object;
  svc_delete_bucket := do_delete_bucket
|}.

(** A fresh interpreter over a service state. *)
Definition boot (s : state) : world state := World s [] [].

End RefS3.

(** ** The vocabulary of the statements *)

(** The world after one request: the service state the handler left, the
    lines printed since, and the request appended to the record. *)
Definition after {S} (w : world S) (s' : S) (lines : list string)
    (c : client) (r : request) : world S :=
  World s' (stdout w ++ lines) (issued w ++ [(c, r)]).

(** The lines [list_object_versions] prints for one version. *)
Definition version_lines (v : ObjectVersion) : list string :=
  [ "Object Key: " +:+ Key v;
    "Object Version Id: " +:+ VersionId v;
    "Is Latest: " +:+ str_bool (IsLatest v);
    "Last Modified: " +:+ LastModified v;
    "" ].

(** The deletions [s3_delete_bucket] derives from a listing response: one
    per version, then one per delete marker. *)
Definition purge_requests (bucket : string)
    (response : ListObjectVersionsOutput) : list request :=
  ((λ v, DeleteObject bucket (Key v) (Some (VersionId v)))
     <$> default [] (Versions response)) ++
  ((λ m, DeleteObject bucket (dm_Key m) (Some (dm_VersionId m)))
     <$> default [] (DeleteMarkers response)).

(** The objects these deletions name, as (key, version id). *)
Definition purge_targets (response : ListObjectVersionsOutput)
  : list (string * string) :=
  ((λ v, (Key v, VersionId v)) <$> default [] (Versions response)) ++
  ((λ m, (dm_Key m, dm_VersionId m)) <$> default [] (DeleteMarkers response)).

(** [delete_object] called on the targets one after the other, each on
    the state the call before left, up to the first call that raises:
    the exception of that call if there is one, the state the last call
    made left, and the number of calls made. *)
Fixpoint delete_each (svc : Service) (c : client) (bucket : string)
    (targets : list (string * string)) (s : sstate svc)
  : option exn * sstate svc * nat :=
  match targets with
  | [] => (None, s, 0)
  | (k, v) :: rest =>
      match svc_delete_object svc c bucket k (Some v) s with
      | (Ok _, s') =>
          let '(failed, s'', n) := delete_each svc c bucket rest s' in
          (failed, s'', S n)
      | (Raise e, s') => (Some e, s', 1)
      end
  end.

Import RefS3.

(** What names an entry within its bucket. *)
Definition ident (e : entry) : string * string := (e_key e, e_vid e).

(** The entries left once the named ones have been deleted, one call after
    the other. *)
Definition strike (es : list entry) (ps : list (string * string)) : list entry :=
  foldl (λ es p, filter (λ e, names p.1 p.2 e = false) es) es ps.

(** The service state after the named entries of a bucket were deleted. *)
Definition purged (s : state) (name : string) (b : bucket)
    (ps : list (string * string)) : state :=
  State (files s)
        (<[name := with_entries b (strike (b_entries b) ps)]> (buckets s))
        (clock s + length ps) (readonly s).

(** The page of entries a listing of the whole bucket returns, and the
    names the purge of [s3_delete_bucket] deletes from it: the versions
    first, then the delete markers. *)
Definition listed (es : list entry) : list entry :=
  take max_keys (matching_entries es None).
Definition purge_idents (es : list entry) : list (string * string) :=
  (ident <$> filter (λ e, e_marker e = false) (listed es)) ++
  (ident <$> filter (λ e, e_marker e = true) (listed es)).

(** The lab's bucket with [n] objects under [images/], one version each,
    the newest first; the account that holds it. *)
Definition numbered (n : nat) : list entry :=
  (λ i, Entry ("images/" +:+ pretty i) (pretty i) false "payload" i)
    <$> rev (seq 0 n).
Definition crowded : state :=
  State ∅ {[ BUCKET_NAME := Bucket Enabled (numbered 1001) None None ]} 1001
        ∅.

(** An account without buckets, and no local files. *)
Definition fresh : state := State ∅ ∅ 0 ∅.

(** The local files the notebook uploads. *)
Definition lab_files : gmap string string :=
  {[ "data/images/v1/AWS-Logo.png" := "PNG 1";
     "data/images/v2/AWS-Logo.png" := "PNG 2";
     local_file_path_json := "{}" ]}.

(** The lab after its bucket was created and versioning switched on. *)
Definition lab : state :=
  State lab_files {[ BUCKET_NAME := Bucket Enabled [] None None ]} 0 ∅.

(** The lab's bucket after the image was uploaded and then deleted without
    naming a version: a version and, above it, a delete marker. *)
Definition marked_entries : list entry :=
  [ Entry "images/AWS-Logo.png" "1" true "" 1;
    Entry "images/AWS-Logo.png" "0" false "PNG 1" 0 ].
Definition marked : state :=
  State lab_files {[ BUCKET_NAME := Bucket Enabled marked_entries None None ]} 2
        ∅.

(** The version id a stored payload gets. *)
Definition put_vid (b : bucket) (t : nat) : string :=
  match b_versioning b with Enabled => pretty t | _ => null end.

(** The requests of [s3_delete_bucket] with the purge, on a bucket that
    exists. *)
Definition purge_log (name : string) (es : list entry) : list request :=
  ListObjectVersions name None
  :: ((λ p, DeleteObject name p.1 (Some p.2)) <$> purge_idents es)
  ++ [DeleteBucket name].

(** A version id is the null one or was drawn from the counter before
    [t]. *)
Definition drawn_before (t : nat) (v : string) : Prop :=
  v = null ∨ ∃ i, i < t ∧ v = pretty i.

(** A bucket is well formed at time [t]: its entries have distinct names,
    with version ids drawn before [t]. *)
Definition wf_bucket (t : nat) (b : bucket) : Prop :=
  NoDup (ident <$> b_entries b)
  ∧ ∀ e, e ∈ b_entries b → drawn_before t (e_vid e).

Definition wf (s : state) : Prop :=
  ∀ name b, buckets s !! name = Some b → wf_bucket (clock s) b.

(** The state a request leaves behind. *)
Definition step (c : client) (r : request) (s : state) : state :=
  match r with
  | CreateBucket name loc => (do_create_bucket c name loc s).2
  | UploadFile filename name k => (do_upload_file c filename name k s).2
  | DownloadFile name k filename => (do_download_file c name k filename s).2
  | PutPublicAccessBlock name cfg => (do_put_public_access_block c name cfg s).2
  | PutBucketPolicy name policy => (do_put_bucket_policy c name policy s).2
  | PutBucketVersioning name cfg => (do_put_bucket_versioning c name cfg s).2
  | ListObjectsV2 name p => (do_list_objects_v2 c name p s).2
  | ListObjectVersions name p => (do_list_object_versions c name p s).2
  | DeleteObject name k v => (do_delete_object c name k v s).2
  | DeleteBucket name => (do_delete_bucket c name s).2
  end.

(** The states the service reaches from an account without buckets, by
    the requests above and by changes to the local files and to what can
    be written. *)
Inductive reachable : state → Prop :=
  | reach_fresh fs ro : reachable (State fs ∅ 0 ro)
  | reach_step c r s : reachable s → reachable (step c r s)
  | reach_files fs ro s :
      reachable s → reachable (State fs (buckets s) (clock s) ro).

(** ** The notebook's driver cells *)

Section Cells.
Context (svc : Service).

(** [json.dumps] and [str] of a response dictionary, as [print(response)]
    shows it: library code, taken as given.  So are [json.loads], which
    returns the value a text denotes or raises (a JSONDecodeError for a
    text that is not JSON), and [str] of such a value, as [print] shows
    it. *)
Variable json_dumps : json → string.
Variable str_response : ResponseMetadata → string.
Variable json_loads : string → result json.
Variable str_json : json → string.

Local Abbreviation Py := (M (sstate svc)).

(** Cell 4. *)
Definition cell_4 : Py unit :=
  create_s3_bucket svc BUCKET_NAME AWS_DEFAULT_REGION.

(** Cell 8: the CSV upload. *)
Definition local_file_path : string :=
  "data/csv/ratings_ml_training_dataset.csv".
Definition object_key : string := "csv/ratings_ml_training_dataset.csv".
Definition cell_8 : Py unit :=
  upload_file_to_s3 svc local_file_path BUCKET_NAME object_key.

(** Cell 13, after its [!mkdir 'downloads']: the cell binds
    [local_file_path] anew, to the download path.  The shell line is not
    Python; what it is there for, a directory to write into, is a
    condition on the service state where a statement needs it. *)
Definition local_file_path_13 : string :=
  "./downloads/delivery-stream-one-record.json".
Definition cell_13 : Py unit :=
  download_object_from_s3 svc BUCKET_NAME object_key_json local_file_path_13.

(** Cell 14: the downloaded file is opened, read, parsed and printed;
    nothing is caught, so a file that is missing or is not JSON ends the
    cell with the exception. *)
Definition cell_14 : Py unit :=
  content <- open_read svc local_file_path_13;;
  json_content <- (λ w, (json_loads content, w));;
  print (str_json json_content).

(** Cell 16, below the configuration. *)
Definition cell_16 : Py unit :=
  s3_public_access_setup svc BUCKET_NAME public_access_configuration.

(** Cell 18. *)
Definition policy : json :=
  JDict
    [ ("Version", JStr "2012-10-17");
      ("Statement",
       JList
         [ JDict
             [ ("Effect", JStr "Allow");
               ("Principal", JStr "*");
               ("Action", JStr "s3:GetObject");
               ("Resource",
                JStr ("arn:aws:s3:::" +:+ BUCKET_NAME +:+ "/images/*")) ] ]) ].

(** Cell 19. *)
Definition cell_19 : Py unit :=
  response <- s3_put_bucket_policy svc json_dumps BUCKET_NAME policy;;
  print (str_response response).

(** Cell 20: the first logo. *)
Definition local_file_path_image_v1 : string := "data/images/v1/AWS-Logo.png".
Definition object_key_image : string := "images/AWS-Logo.png".
Definition cell_20 : Py unit :=
  upload_file_to_s3 svc local_file_path_image_v1 BUCKET_NAME object_key_image.

(** The cell that switches versioning on, below the configuration. *)
Definition cell_versioning : Py unit :=
  response <- configure_bucket_versioning svc BUCKET_NAME versioning_config;;
  print (str_response response).

(** The cell that uploads the second logo, under the key of the first. *)
Definition local_file_path_image_v2 : string := "data/images/v2/AWS-Logo.png".
Definition cell_image_v2 : Py unit :=
  upload_file_to_s3 svc local_file_path_image_v2 BUCKET_NAME object_key_image.

(** The cell that lists the objects: the prefix has no slash. *)
Definition cell_list_objects : Py unit :=
  list_objects_in_folder svc BUCKET_NAME "images".

(** The call below the definition of [list_object_versions]. *)
Definition cell_list_versions : Py unit :=
  list_object_versions svc BUCKET_NAME "images/".

(** The call below the definition of [s3_delete_bucket]. *)
Definition cell_delete : Py unit :=
  response <- s3_delete_bucket svc BUCKET_NAME true;;
  print (str_response response).

(** The cells above the last one, run in the notebook's order; a cell
    that raises ends the run.  The shell lines ([!aws s3 ls], [!mkdir])
    are not Python and are not part of it. *)
Definition cells_before_delete : Py unit :=
  cell_4;; cell_8;; cell_10 svc;; cell_13;; cell_14;; cell_16;; cell_19;;
  cell_20;; cell_versioning;; cell_image_v2;; cell_list_objects;;
  cell_list_versions.

(** The notebook's Python cells from top to bottom. *)
Definition notebook : Py unit := cells_before_delete;; cell_delete.

(** The requests of these cells up to the last one. *)
Definition notebook_requests : list request :=
  [ CreateBucket BUCKET_NAME None;
    UploadFile local_file_path BUCKET_NAME object_key;
    UploadFile local_file_path_json BUCKET_NAME object_key_json;
    DownloadFile BUCKET_NAME object_key_json local_file_path_13;
    PutPublicAccessBlock BUCKET_NAME public_access_configuration;
    PutBucketPolicy BUCKET_NAME (json_dumps policy);
    UploadFile local_file_path_image_v1 BUCKET_NAME object_key_image;
    PutBucketVersioning BUCKET_NAME versioning_config;
    UploadFile local_file_path_image_v2 BUCKET_NAME object_key_image;
    ListObjectsV2 BUCKET_NAME (Some "images");
    ListObjectVersions BUCKET_NAME (Some "images/") ].

End Cells.

(** ** More vocabulary *)

(** The bucket a request is addressed to. *)
Definition bucket_of (r : request) : string :=
  match r with
  | CreateBucket b _ | UploadFile _ b _ | DownloadFile b _ _
  | PutPublicAccessBlock b _ | PutBucketPolicy b _ | PutBucketVersioning b _
  | ListObjectsV2 b _ | ListObjectVersions b _ | DeleteObject b _ _
  | DeleteBucket b => b
  end.

(** A deletion of an object that names no version: in a versioned bucket
    it leaves a delete marker instead of removing anything. *)
Definition unversioned_delete (r : request) : bool :=
  match r with DeleteObject _ _ None => true | _ => false end.

(** A request addressed to the bucket that is not a deletion without a
    version. *)
Definition within (bucket : string) (r : request) : Prop :=
  bucket_of r = bucket ∧ unversioned_delete r = false.

(** A computation that prints nothing, whatever the world and the
    outcome. *)
Definition quiet {S A} (m : M S A) : Prop :=
  ∀ w, stdout (m w).2 = stdout w.

(** A computation all of whose requests satisfy [P], whatever the world
    and the outcome. *)
Definition confined {S A} (P : request → Prop) (m : M S A) : Prop :=
  ∀ w, ∃ sent, issued (m w).2 = issued w ++ sent ∧ Forall (λ cr, P cr.2) sent.

(** A computation that, when it ends normally, has sent requests of the
    shape [Q]. *)
Definition sends {S A} (Q : list request → Prop) (m : M S A) : Prop :=
  ∀ w a w', m w = (Ok a, w') →
    ∃ l, Q l ∧ requests (issued w') = requests (issued w) ++ l.

(** A client none of whose calls gets through: building it gives [built],
    and every method raises [e]. *)
Definition refusing (built : result client) (e : exn) : Service := {|
  sstate := unit;
  svc_client := λ _ _, built;
  svc_open_read := λ _ s, (Raise e, s);
  svc_create_bucket := λ _ _ _ s, (Raise e, s);
  svc_upload_file := λ _ _ _ _ s, (Raise e, s);
  svc_download_file := λ _ _ _ _ s, (Raise e, s);
  svc_put_public_access_block := λ _ _ _ s, (Raise e, s);
  svc_put_bucket_policy := λ _ _ _ s, (Raise e, s);
  svc_put_bucket_versioning := λ _ _ _ s, (Raise e, s);
  svc_list_objects_v2 := λ _ _ _ s, (Raise e, s);
  svc_list_object_versions := λ _ _ _ s, (Raise e, s);
  svc_delete_object := λ _ _ _ _ s, (Raise e, s);
  svc_delete_bucket := λ _ _ s, (Raise e, s)
|}.

(** The reference service behind a client that checks the region it is
    given: botocore refuses a region name that cannot be part of a host
    name when the client is built. *)
Definition picky (bad : string) : Service := {|
  sstate := state;
  svc_client := λ region s,
    if bool_decide (region = Some bad) then
      Raise (Error "InvalidRegionError"
                   ("Provided region_name '" +:+ bad +:+
                    "' doesn't match a supported format."))
    else Ok (Client region);
  svc_open_read := do_open_read;
  svc_create_bucket := do_create_bucket;
  svc_upload_file := do_upload_file;
  svc_download_file := do_download_file;
  svc_put_public_access_block := do_put_public_access_block;
  svc_put_bucket_policy := do_put_bucket_policy;
  svc_put_bucket_versioning := do_put_bucket_versioning;
  svc_list_objects_v2 := do_list_objects_v2;
  svc_list_object_versions := do_list_object_versions;
  svc_delete_object := do_delete_object;
  svc_delete_bucket := do_delete_bucket
|}.

(** The reference service with one key under a retention lock: the
    service refuses to delete a version of that key. *)
Definition retaining (held : string) : Service := {|
  sstate := state;
  svc_client := do_client;
  svc_open_read := do_open_read;
  svc_create_bucket := do_create_bucket;
  svc_upload_file := do_upload_file;
  svc_download_file := do_download_file;
  svc_put_public_access_block := do_put_public_access_block;
  svc_put_bucket_policy := do_put_bucket_policy;
  svc_put_bucket_versioning := do_put_bucket_versioning;
  svc_list_objects_v2 := do_list_objects_v2;
  svc_list_object_versions := do_list_object_versions;
  svc_delete_object := λ c name k vid s,
    if bool_decide (k = held) then (Raise (client_error "AccessDenied"), s)
    else do_delete_object c name k vid s;
  svc_delete_bucket := do_delete_bucket
|}.

(** The account as a world shows it: the local files, the paths at
    which a write fails, and the buckets. *)
Definition account (ro : gset string) (w : world state)
    (fs : gmap string string) (bs : gmap string bucket) : Prop :=
  files (remote w) = fs ∧ readonly (remote w) = ro ∧ buckets (remote w) = bs.

(** The lab's account before the notebook runs: the four data files, no
    bucket. *)
Definition before_lab : state :=
  State (<[ local_file_path := "user,item,rating" ]> lab_files) ∅ 0 ∅.

(** * Properties *)

(** ** How the notebook's functions run, over any client *)

Ltac py_unfold :=
  unfold create_s3_bucket, upload_file_to_s3, download_object_from_s3,
    s3_public_access_setup, s3_put_bucket_policy, configure_bucket_versioning,
    list_objects_in_folder, list_object_versions, s3_delete_bucket,
    create_bucket, upload_file, download_file, put_public_access_block,
    put_bucket_policy, put_bucket_versioning, list_objects_v2,
    client_list_object_versions, delete_object, delete_bucket,
    boto3_client, invoke, try_except_Exception, bind, ret, print, after;
  cbn [remote stdout issued fst snd].

Section Runs.
Context (svc : Service) (json_dumps : json → string).
Implicit Types w : world (sstate svc).

Lemma for_in_print {A} (f : A → string) (l : list A) w :
  for_in l (λ x, print (f x)) w
  = (Ok tt, World (remote w) (stdout w ++ (f <$> l)) (issued w)).
Proof.
  revert w. induction l as [|x l IH]; intros w; cbn [for_in fmap list_fmap].
  - unfold ret. rewrite app_nil_r. by destruct w.
  - unfold bind at 1, print at 1. rewrite IH. cbn [remote stdout issued].
    by rewrite <- app_assoc.
Qed.

Lemma print_version_run (v : ObjectVersion) w :
  print_version svc v w
  = (Ok tt, World (remote w) (stdout w ++ version_lines v) (issued w)).
Proof.
  unfold print_version, bind, print, version_lines.
  cbn [remote stdout issued]. by rewrite <- !app_assoc.
Qed.

Lemma for_in_print_version (l : list ObjectVersion) w :
  for_in l (print_version svc) w
  = (Ok tt,
     World (remote w) (stdout w ++ (l ≫= version_lines)) (issued w)).
Proof.
  revert w. induction l as [|v l IH]; intros w; cbn [for_in].
  - unfold ret. cbn. rewrite app_nil_r. by destruct w.
  - unfold bind at 1. rewrite print_version_run, IH.
    cbn [remote stdout issued]. by rewrite <- app_assoc.
Qed.

(** [create_s3_bucket], outcome by outcome. *)
Lemma create_s3_bucket_run bucket region w c :
  svc_client svc (Some region) (remote w) = Ok c →
  create_s3_bucket svc bucket region w
  = match svc_create_bucket svc c bucket None (remote w) with
    | (Ok _, s') =>
        (Ok tt,
         after w s' ["S3 bucket '" +:+ bucket +:+
                     "' created successfully in region '" +:+ region +:+ "'."]
               c (CreateBucket bucket None))
    | (Raise (Error cls msg), s') =>
        (Ok tt,
         after w s' ["An error occurred: " +:+ msg] c (CreateBucket bucket None))
    | (Raise e, s') => (Raise e, after w s' [] c (CreateBucket bucket None))
    end.
Proof.
  intros Hc. py_unfold. rewrite Hc.
  destruct (svc_create_bucket _ _ _ _ _) as [[?|[]] ?];
    cbn; by rewrite ?app_nil_r.
Qed.

(** [upload_file_to_s3], outcome by outcome. *)
Lemma upload_file_to_s3_run path bucket key w c :
  svc_client svc None (remote w) = Ok c →
  upload_file_to_s3 svc path bucket key w
  = match svc_upload_file svc c path bucket key (remote w) with
    | (Ok _, s') =>
        (Ok tt,
         after w s' ["File " +:+ path +:+ " uploaded to s3://" +:+ bucket +:+
                     "/" +:+ key +:+ " successfully."]
               c (UploadFile path bucket key))
    | (Raise (Error cls msg), s') =>
        (Ok tt,
         after w s' ["Error uploading file to S3: " +:+ msg]
               c (UploadFile path bucket key))
    | (Raise e, s') => (Raise e, after w s' [] c (UploadFile path bucket key))
    end.
Proof.
  intros Hc. py_unfold. rewrite Hc.
  destruct (svc_upload_file _ _ _ _ _ _) as [[?|[]] ?];
    cbn; by rewrite ?app_nil_r.
Qed.

(** [download_object_from_s3], outcome by outcome. *)
Lemma download_object_from_s3_run bucket key path w c :
  svc_client svc None (remote w) = Ok c →
  download_object_from_s3 svc bucket key path w
  = match svc_download_file svc c bucket key path (remote w) with
    | (Ok _, s') => (Ok tt, after w s' [] c (DownloadFile bucket key path))
    | (Raise (Error cls msg), s') =>
        (Ok tt,
         after w s' ["Error downloading or printing JSON file: " +:+ msg]
               c (DownloadFile bucket key path))
    | (Raise e, s') => (Raise e, after w s' [] c (DownloadFile bucket key path))
    end.
Proof.
  intros Hc. py_unfold. rewrite Hc.
  destruct (svc_download_file _ _ _ _ _ _) as [[[]|[]] ?];
    cbn; by rewrite ?app_nil_r.
Qed.

(** The functions without a [try]: the outcome of the call is theirs. *)
Lemma s3_public_access_setup_run bucket cfg w c :
  svc_client svc None (remote w) = Ok c →
  s3_public_access_setup svc bucket cfg w
  = match svc_put_public_access_block svc c bucket cfg (remote w) with
    | (Ok _, s') => (Ok tt, after w s' [] c (PutPublicAccessBlock bucket cfg))
    | (Raise e, s') =>
        (Raise e, after w s' [] c (PutPublicAccessBlock bucket cfg))
    end.
Proof.
  intros Hc. py_unfold. rewrite Hc.
  destruct (svc_put_public_access_block _ _ _ _ _) as [[?|?] ?];
    cbn; by rewrite ?app_nil_r.
Qed.

Lemma s3_put_bucket_policy_run bucket policy w c :
  svc_client svc None (remote w) = Ok c →
  s3_put_bucket_policy svc json_dumps bucket policy w
  = (let '(r, s') :=
       svc_put_bucket_policy svc c bucket (json_dumps policy) (remote w) in
     (r, after w s' [] c (PutBucketPolicy bucket (json_dumps policy)))).
Proof.
  intros Hc. py_unfold. rewrite Hc.
  destruct (svc_put_bucket_policy _ _ _ _ _) as [[?|?] ?];
    cbn; by rewrite ?app_nil_r.
Qed.

Lemma configure_bucket_versioning_run bucket cfg w c :
  svc_client svc None (remote w) = Ok c →
  configure_bucket_versioning svc bucket cfg w
  = (let '(r, s') := svc_put_bucket_versioning svc c bucket cfg (remote w) in
     (r, after w s' [] c (PutBucketVersioning bucket cfg))).
Proof.
  intros Hc. py_unfold. rewrite Hc.
  destruct (svc_put_bucket_versioning _ _ _ _ _) as [[?|?] ?];
    cbn; by rewrite ?app_nil_r.
Qed.

Lemma list_objects_in_folder_run bucket prefix w c :
  svc_client svc None (remote w) = Ok c →
  list_objects_in_folder svc bucket prefix w
  = match svc_list_objects_v2 svc c bucket (Some prefix) (remote w) with
    | (Ok response, s') =>
        (Ok tt,
         after w s'
           match Contents response with
           | Some contents =>
               ("Objects with a key that starts with '" +:+ prefix +:+ "':")
               :: (obj_Key <$> contents)
           | None => ["No objects found in folder '" +:+ prefix +:+ "'."]
           end
           c (ListObjectsV2 bucket (Some prefix)))
    | (Raise e, s') =>
        (Raise e, after w s' [] c (ListObjectsV2 bucket (Some prefix)))
    end.
Proof.
  intros Hc.
  unfold list_objects_in_folder, list_objects_v2, boto3_client, invoke, bind, after.
  rewrite Hc.
  destruct (svc_list_objects_v2 _ _ _ _ _) as [[response|?] ?];
    cbn [remote stdout issued]; rewrite ?app_nil_r; [|done].
  destruct (Contents response) as [contents|]; [|done].
  unfold print at 1. rewrite for_in_print. cbn [remote stdout issued].
  by rewrite <- app_assoc.
Qed.

Lemma list_object_versions_run bucket prefix w c :
  svc_client svc None (remote w) = Ok c →
  list_object_versions svc bucket prefix w
  = match svc_list_object_versions svc c bucket (Some prefix) (remote w) with
    | (Ok response, s') =>
        (Ok tt,
         after w s' (default [] (Versions response) ≫= version_lines)
               c (ListObjectVersions bucket (Some prefix)))
    | (Raise e, s') =>
        (Raise e, after w s' [] c (ListObjectVersions bucket (Some prefix)))
    end.
Proof.
  intros Hc.
  unfold list_object_versions, client_list_object_versions, boto3_client,
    invoke, bind, after.
  rewrite Hc.
  destruct (svc_list_object_versions _ _ _ _ _) as [[response|?] ?];
    cbn [remote stdout issued]; rewrite ?app_nil_r; [|done].
  by rewrite for_in_print_version.
Qed.

Lemma s3_delete_bucket_direct bucket w c :
  svc_client svc None (remote w) = Ok c →
  s3_delete_bucket svc bucket false w
  = (let '(r, s') := svc_delete_bucket svc c bucket (remote w) in
     (r, after w s' [] c (DeleteBucket bucket))).
Proof.
  intros Hc. py_unfold. rewrite Hc.
  destruct (svc_delete_bucket _ _ _ _) as [[?|?] ?];
    cbn; by rewrite ?app_nil_r.
Qed.


(** A loop that sends one request per element: the record grows by the
    requests of the elements reached, all of them if the loop ends
    normally. *)
Lemma for_in_invoke {A B} (req : A → request)
    (h : A → sstate svc → result B * sstate svc) c (l : list A) w :
  ∃ sent, sent `prefix_of` (req <$> l) ∧
    let '(r, w') := for_in l (λ x, invoke svc c (req x) (h x);; ret tt) w in
    issued w' = issued w ++ ((c,.) <$> sent) ∧
    stdout w' = stdout w ∧
    (if r is Ok _ then sent = req <$> l else True).
Proof.
  revert w. induction l as [|x l IH]; intros w.
  - exists []. cbn. by rewrite app_nil_r.
  - cbn [for_in]. unfold bind at 1, bind at 1, invoke at 1, ret at 1.
    destruct (h x (remote w)) as [[b|e] s1].
    + destruct (IH (World s1 (stdout w) (issued w ++ [(c, req x)])))
        as (sent & Hpre & IH'). clear IH.
      exists (req x :: sent). split; [by apply prefix_cons|].
      destruct (for_in _ _ _) as [r w']. cbn [remote stdout issued] in IH'.
      destruct IH' as (-> & -> & Hall). rewrite <- app_assoc.
      repeat split. destruct r; [|done]. by rewrite Hall.
    + exists [req x]. split; [|done].
      apply (prefix_cons _ []), prefix_nil.
  Qed.

(** [s3_delete_bucket] with [delete_objects=True]: one listing request,
    then requests drawn, in order, from the deletions of that one
    response and the final bucket deletion. *)
Lemma s3_delete_bucket_requests bucket w c response s1 :
  svc_client svc None (remote w) = Ok c →
  svc_list_object_versions svc c bucket None (remote w) = (Ok response, s1) →
  ∃ sent,
    sent `prefix_of` purge_requests bucket response ++ [DeleteBucket bucket] ∧
    issued (s3_delete_bucket svc bucket true w).2
    = issued w ++ (c, ListObjectVersions bucket None) :: ((c,.) <$> sent).
Proof.
  intros Hc Hl. unfold s3_delete_bucket.
  unfold bind at 1, boto3_client. rewrite Hc.
  unfold bind at 1. unfold bind at 1. unfold bind at 1.
  unfold client_list_object_versions at 1, invoke at 1. rewrite Hl.
  cbn [remote stdout issued]. unfold delete_object, purge_requests.
  set (w1 := World s1 _ _).
  destruct (for_in_invoke
              (λ v, DeleteObject bucket (Key v) (Some (VersionId v)))
              (λ v, svc_delete_object svc c bucket (Key v) (Some (VersionId v)))
              c (default [] (Versions response)) w1)
    as (sent1 & Hpre1 & H1).
  destruct (for_in _ _ w1) as [[[]|e] w2]; destruct H1 as (Hw2 & _ & Hall1).
  - subst sent1.
    destruct (for_in_invoke
                (λ m, DeleteObject bucket (dm_Key m) (Some (dm_VersionId m)))
                (λ m, svc_delete_object svc c bucket (dm_Key m)
                                        (Some (dm_VersionId m)))
                c (default [] (DeleteMarkers response)) w2)
      as (sent2 & Hpre2 & H2).
    destruct (for_in _ _ w2) as [[[]|e] w3]; destruct H2 as (Hw3 & _ & Hall2).
    + subst sent2. eexists. split; [done|].
      unfold bind, delete_bucket, invoke, ret.
      destruct (svc_delete_bucket _ _ _ _) as [[?|?] ?];
        cbn [snd issued]; rewrite Hw3, Hw2; subst w1; cbn [issued];
        rewrite !fmap_app, <- !app_assoc; done.
    + exists (((λ v, DeleteObject bucket (Key v) (Some (VersionId v)))
                 <$> default [] (Versions response)) ++ sent2).
      split.
      { rewrite <- app_assoc. by apply prefix_app, prefix_app_r. }
      cbn [snd]. rewrite Hw3, Hw2. subst w1. cbn [issued].
      by rewrite !fmap_app, <- !app_assoc.
  - exists sent1. split; [by do 2 apply prefix_app_r|].
    cbn [snd]. rewrite Hw2. subst w1. cbn [issued].
    by rewrite <- !app_assoc.
Qed.

(** The deletions of the purge are the deletions of its targets. *)
Lemma purge_requests_targets bucket response :
  purge_requests bucket response
  = (λ p, DeleteObject bucket p.1 (Some p.2)) <$> purge_targets response.
Proof.
  unfold purge_requests, purge_targets.
  by rewrite fmap_app, <- !list_fmap_compose.
Qed.

(** [delete_each] makes at most one call per target, and one call per
    target when none raises. *)
Lemma delete_each_calls c bucket targets (s : sstate svc) failed s' n :
  delete_each svc c bucket targets s = (failed, s', n) →
  n ≤ length targets ∧ (failed = None → n = length targets).
Proof.
  revert s failed s' n.
  induction targets as [|[k v] targets IH]; intros s failed s' n; cbn.
  - intros [= <- _ <-]. done.
  - destruct (svc_delete_object _ _ _ _ _ _) as [[r|e] s1].
    + destruct (delete_each _ _ _ _ _) as [[failed1 s2] n1] eqn:Hrest.
      intros [= <- _ <-]. destruct (IH _ _ _ _ Hrest) as [Hle Hall].
      split; [lia|]. intros Hnone. by rewrite Hall.
    + intros [= <- _ <-]. split; [lia|done].
Qed.

Lemma delete_each_app c bucket targets1 targets2 (s : sstate svc) :
  delete_each svc c bucket (targets1 ++ targets2) s
  = let '(failed, s', n) := delete_each svc c bucket targets1 s in
    match failed with
    | Some e => (Some e, s', n)
    | None =>
        let '(failed2, s'', m) := delete_each svc c bucket targets2 s' in
        (failed2, s'', n + m)
    end.
Proof.
  revert s. induction targets1 as [|[k v] targets1 IH]; intros s; cbn.
  - by destruct (delete_each _ _ _ _ _) as [[failed2 s''] m].
  - destruct (svc_delete_object _ _ _ _ _ _) as [[r|e] s1]; [|done].
    rewrite IH. destruct (delete_each _ _ _ targets1 _) as [[[e|] s2] n1]; [done|].
    by destruct (delete_each _ _ _ targets2 _) as [[failed2 s''] m].
Qed.

(** A loop of the purge is [delete_each] on what it iterates over: it
    ends with the exception of the first call that raises, having sent
    the requests up to that one. *)
Lemma for_in_delete_each {A} (kf vf : A → string) c bucket (l : list A) w :
  for_in l (λ x, delete_object svc c bucket (kf x) (Some (vf x));; ret tt) w
  = let '(failed, s', n) :=
      delete_each svc c bucket ((λ x, (kf x, vf x)) <$> l) (remote w) in
    (if failed is Some e then Raise e else Ok tt,
     World s' (stdout w)
           (issued w ++
            ((c,.) <$> take n ((λ x, DeleteObject bucket (kf x) (Some (vf x)))
                               <$> l)))).
Proof.
  revert w. induction l as [|x l IH]; intros w; cbn [for_in fmap list_fmap].
  - cbn. unfold ret. rewrite app_nil_r. by destruct w.
  - unfold bind at 1, bind at 1, delete_object at 1, invoke at 1, ret at 1.
    cbn [delete_each].
    destruct (svc_delete_object _ _ _ _ _ _) as [[r|e] s1].
    + rewrite IH. cbn [remote stdout issued].
      destruct (delete_each _ _ _ _ _) as [[failed s'] n].
      cbn [take fmap list_fmap]. by rewrite <- app_assoc.
    + cbn [take fmap list_fmap]. by rewrite take_0.
Qed.

(** [s3_delete_bucket] with [delete_objects=True], call by call: the
    listing, the deletions up to the first that raises, and the bucket
    deletion when none did; the function ends with the exception of the
    first call that raises, or with what [delete_bucket] returns. *)
Lemma s3_delete_bucket_purge_outcome bucket w c response s1 :
  svc_client svc None (remote w) = Ok c →
  svc_list_object_versions svc c bucket None (remote w) = (Ok response, s1) →
  s3_delete_bucket svc bucket true w
  = let '(failed, s2, n) :=
      delete_each svc c bucket (purge_targets response) s1 in
    match failed with
    | Some e =>
        (Raise e,
         World s2 (stdout w)
               (issued w ++ (c, ListObjectVersions bucket None)
                :: ((c,.) <$> take n (purge_requests bucket response))))
    | None =>
        let '(r, s3) := svc_delete_bucket svc c bucket s2 in
        (r,
         World s3 (stdout w)
               (issued w ++ (c, ListObjectVersions bucket None)
                :: ((c,.) <$> purge_requests bucket response)
                ++ [(c, DeleteBucket bucket)]))
    end.
Proof.
  intros Hc Hl. unfold s3_delete_bucket.
  unfold bind at 1, boto3_client. rewrite Hc.
  unfold bind at 1. unfold bind at 1. unfold bind at 1.
  unfold client_list_object_versions at 1, invoke at 1. rewrite Hl.
  cbn [remote stdout issued].
  rewrite (for_in_delete_each Key VersionId). cbn [remote stdout issued].
  unfold purge_targets, purge_requests. rewrite delete_each_app.
  destruct (delete_each _ _ _ _ s1) as [[failed1 s2] n1] eqn:H1.
  destruct (delete_each_calls _ _ _ _ _ _ _ H1) as [Hle1 Hall1].
  rewrite length_fmap in Hle1, Hall1.
  destruct failed1 as [e|].
  - rewrite take_app_le by (by rewrite length_fmap).
    by rewrite <- app_assoc.
  - rewrite (Hall1 eq_refl), <- (length_fmap (λ v, DeleteObject bucket (Key v)
                                                 (Some (VersionId v)))).
    rewrite firstn_all.
    rewrite (for_in_delete_each dm_Key dm_VersionId).
    cbn [remote stdout issued].
    destruct (delete_each _ _ _ _ s2) as [[failed2 s3] n2] eqn:H2.
    destruct (delete_each_calls _ _ _ _ _ _ _ H2) as [Hle2 Hall2].
    rewrite length_fmap in Hle2, Hall2.
    destruct failed2 as [e|].
    + rewrite take_app_add, fmap_app, <- !app_assoc. done.
    + rewrite (Hall2 eq_refl), <- (length_fmap (λ m, DeleteObject bucket
                                     (dm_Key m) (Some (dm_VersionId m)))).
      rewrite firstn_all.
      unfold bind, delete_bucket, invoke, ret. cbn [remote stdout issued].
      destruct (svc_delete_bucket _ _ _ _) as [[r|e] s4];
        by rewrite !fmap_app, <- !app_assoc.
Qed.
End Runs.

(** ** Sorting by key: permutation and order *)

Section SortFacts.
Context {A : Type} (key : A → string).
Implicit Types l : list A.

Lemma insert_by_perm x l : insert_by key x l ≡ₚ x :: l.
Proof.
  induction l as [|y l IH]; cbn; [done|].
  case_decide; [done|]. by rewrite IH, Permutation_swap.
Qed.

Lemma sort_by_perm l : sort_by key l ≡ₚ l.
Proof.
  induction l as [|x l IH]; cbn; [done|].
  by rewrite insert_by_perm, IH.
Qed.

Lemma insert_by_sorted x l :
  Sorted (key_le key) l → Sorted (key_le key) (insert_by key x l).
Proof.
  induction 1 as [|y l Hl IH Hy]; cbn.
  - by repeat constructor.
  - case_decide as Hxy.
    + by repeat constructor.
    + assert (key_le key y x) by (by destruct (total String.le (key y) (key x))).
      constructor; [done|].
      destruct Hy as [|z l Hz]; cbn; [by constructor|].
      case_decide; by constructor.
Qed.

Lemma sort_by_sorted l : StronglySorted (key_le key) (sort_by key l).
Proof.
  apply Sorted_StronglySorted.
  { intros x y z. unfold key_le. apply transitivity. }
  induction l as [|x l IH]; cbn; [constructor|].
  by apply insert_by_sorted.
Qed.

Lemma elem_of_sort_by x l : x ∈ sort_by key l ↔ x ∈ l.
Proof. by rewrite sort_by_perm. Qed.

Lemma length_sort_by l : length (sort_by key l) = length l.
Proof. by rewrite sort_by_perm. Qed.
End SortFacts.

(** ** The reference service: how its state evolves *)

Section RefS3Facts.
Implicit Types (w : world state) (s : state) (b : bucket) (e : entry).
Implicit Types (es : list entry) (ps : list (string * string)).

Lemma with_entries_id b : with_entries b (b_entries b) = b.
Proof. by destruct b. Qed.

Lemma names_false k v e : names k v e = false ↔ ident e ≠ (k, v).
Proof.
  unfold names, ident. rewrite bool_decide_eq_false.
  split; intros H; [intros [= ??]; auto | intros [??]; apply H; congruence].
Qed.

Lemma latest_cons_eq e es : latest (e :: es) (e_key e) = Some e.
Proof. unfold latest. by rewrite filter_cons_True. Qed.

Lemma latest_elem_of es k e : latest es k = Some e → e ∈ es ∧ e_key e = k.
Proof.
  unfold latest. intros H.
  assert (e ∈ filter (λ e, e_key e = k) es) as Hin.
  { destruct (filter _ es); simplify_eq/=. left. }
  apply list_elem_of_filter in Hin. tauto.
Qed.

Lemma put_object_entries b k body t :
  ∃ old, b_entries (put_object b k body t)
         = Entry k (put_vid b t) false body t :: old
         ∧ (b_versioning b = Enabled → old = b_entries b).
Proof.
  unfold put_object, put_vid.
  destruct (b_versioning b); cbn; eexists; split; try done.
Qed.

Lemma put_object_Enabled b k body t :
  b_versioning b = Enabled →
  put_object b k body t
  = with_entries b (Entry k (pretty t) false body t :: b_entries b).
Proof. unfold put_object. by intros ->. Qed.

Lemma elem_of_strike es ps e : e ∈ strike es ps ↔ e ∈ es ∧ ident e ∉ ps.
Proof.
  unfold strike. revert es. induction ps as [|[k v] ps IH]; intros es; cbn.
  - rewrite elem_of_nil. tauto.
  - rewrite IH, list_elem_of_filter, names_false, not_elem_of_cons. cbn. tauto.
Qed.

Lemma strike_app es ps1 ps2 :
  strike es (ps1 ++ ps2) = strike (strike es ps1) ps2.
Proof. apply foldl_app. Qed.

Lemma default_nonempty {A} (l : list A) : default [] (nonempty l) = l.
Proof. by destruct l. Qed.

(** A loop of deletions by version id, on a bucket that exists: every
    call succeeds and removes the entry it names. *)
Lemma purge_loop {A} (kf vf : A → string) (l : list A) c name w b :
  buckets (remote w) !! name = Some b →
  for_in l (λ x, delete_object service c name (kf x) (Some (vf x));; ret tt) w
  = (Ok tt,
     World (purged (remote w) name b ((λ x, (kf x, vf x)) <$> l))
           (stdout w)
           (issued w ++
            ((λ x, (c, DeleteObject name (kf x) (Some (vf x)))) <$> l))).
Proof.
  revert w b. induction l as [|x l IH]; intros [s out log] b Hb; cbn in Hb.
  - cbn. unfold ret, purged, strike. cbn.
    rewrite with_entries_id, insert_id, Nat.add_0_r, app_nil_r by done.
    by destruct s.
  - cbn [for_in]. unfold bind at 1.
    unfold bind at 1, delete_object at 1, invoke, ret at 1.
    cbn [remote stdout issued service svc_delete_object]. unfold do_delete_object.
    rewrite Hb. cbn [b_entries].
    erewrite IH; last by (cbn; apply lookup_insert_eq).
    cbn. f_equal. unfold purged, strike. cbn.
    rewrite insert_insert_eq, <- app_assoc. do 2 f_equal.
    lia.
Qed.

Lemma purged_purged s name b ps1 ps2 :
  purged (purged s name b ps1) name
         (with_entries b (strike (b_entries b) ps1)) ps2
  = purged s name b (ps1 ++ ps2).
Proof.
  unfold purged. cbn.
  rewrite insert_insert_eq, strike_app, length_app. f_equal. lia.
Qed.

Lemma s3_delete_bucket_purge_run w name b :
  buckets (remote w) !! name = Some b →
  let ps := purge_idents (b_entries b) in
  let s' := purged (remote w) name b ps in
  let log :=
    issued w ++
    (Client None, ListObjectVersions name None)
    :: ((λ p, (Client None, DeleteObject name p.1 (Some p.2))) <$> ps)
    ++ [(Client None, DeleteBucket name)] in
  s3_delete_bucket service name true w
  = if strike (b_entries b) ps is [] then
      (Ok (ok 204),
       World (with_buckets s' (delete name (buckets s'))) (stdout w) log)
    else (Raise (client_error "BucketNotEmpty"), World s' (stdout w) log).
Proof.
  intros Hb. destruct w as [s out log0]; cbn in Hb.
  unfold s3_delete_bucket.
  unfold bind at 1, boto3_client. cbn [service svc_client do_client remote].
  unfold bind at 1. unfold bind at 1. unfold bind at 1.
  unfold client_list_object_versions, invoke.
  cbn [service svc_list_object_versions remote stdout issued].
  unfold do_list_object_versions. rewrite Hb.
  cbn [Versions DeleteMarkers]. rewrite !default_nonempty.
  erewrite (purge_loop Key VersionId) by (cbn; exact Hb).
  cbn [remote stdout issued].
  erewrite (purge_loop dm_Key dm_VersionId)
    by (cbn; apply lookup_insert_eq).
  cbn [remote stdout issued].
  rewrite purged_purged, <- !list_fmap_compose.
  unfold purge_idents, listed. rewrite fmap_app, <- !list_fmap_compose.
  unfold bind, delete_bucket, invoke, ret.
  cbn [service svc_delete_bucket remote stdout issued].
  unfold do_delete_bucket. cbn [purged buckets].
  rewrite lookup_insert_eq. cbn [with_entries b_entries].
  unfold compose, ident, to_version, to_marker.
  cbn [Key VersionId dm_Key dm_VersionId fst snd].
  rewrite <- !app_assoc. cbn [app].
  by destruct (strike _ _).
Qed.

Lemma filter_all {A} (P : A → Prop) `{∀ x, Decision (P x)} (l : list A) :
  (∀ x, x ∈ l → P x) → filter P l = l.
Proof.
  induction l as [|x l IH]; intros HP; [done|].
  rewrite filter_cons_True by (apply HP; left).
  f_equal. apply IH. intros y Hy. apply HP. by right.
Qed.

Lemma has_prefix_None k : has_prefix None k = true.
Proof. by destruct k. Qed.

Lemma matching_entries_None es : matching_entries es None ≡ₚ es.
Proof.
  unfold matching_entries. rewrite sort_by_perm, filter_all; [done|].
  intros e _. apply has_prefix_None.
Qed.

Lemma elem_of_matching_entries es p e :
  e ∈ matching_entries es p ↔ e ∈ es ∧ has_prefix p (e_key e) = true.
Proof.
  unfold matching_entries. rewrite elem_of_sort_by, list_elem_of_filter. tauto.
Qed.

Lemma elem_of_purge_idents es e :
  e ∈ listed es → ident e ∈ purge_idents es.
Proof.
  intros He. unfold purge_idents. rewrite elem_of_app.
  destruct (e_marker e) eqn:Em; [right|left];
    apply list_elem_of_fmap_2, list_elem_of_filter; done.
Qed.

Lemma purge_idents_listed es p :
  p ∈ purge_idents es → p ∈ ident <$> listed es.
Proof.
  unfold purge_idents. rewrite elem_of_app, !list_elem_of_fmap.
  intros [(e & -> & He)|(e & -> & He)];
    apply list_elem_of_filter in He as [_ He]; eauto.
Qed.

(** A listing that is one page long names every entry: the purge leaves
    nothing. *)
Lemma strike_all es :
  length es ≤ max_keys → strike es (purge_idents es) = [].
Proof.
  intros Hlen. apply elem_of_nil_inv. intros e.
  rewrite elem_of_strike. intros [He Hn]. apply Hn, elem_of_purge_idents.
  unfold listed. rewrite take_ge.
  - by rewrite matching_entries_None.
  - by rewrite matching_entries_None.
Qed.

(** A listing that is cut short misses an entry: the purge leaves it. *)
Lemma strike_rest es :
  NoDup (ident <$> es) → max_keys < length es →
  strike es (purge_idents es) ≠ [].
Proof.
  intros Hnd Hlen.
  pose proof (matching_entries_None es) as Hperm.
  destruct (lookup_lt_is_Some_2 (matching_entries es None) max_keys)
    as [e He]; [by rewrite Hperm|].
  assert (e ∈ strike es (purge_idents es)) as Hin.
  2: { intros E. rewrite E in Hin. by apply elem_of_nil in Hin. }
  apply elem_of_strike. split.
  { rewrite <- Hperm. by eapply list_elem_of_lookup_2. }
  intros Hp. apply purge_idents_listed, list_elem_of_fmap in Hp
    as (e' & Hid & He').
  apply elem_of_take in He' as (i & Hi & Hlt).
  rewrite <- Hperm in Hnd.
  assert (i = max_keys); [|lia].
  eapply (NoDup_lookup _ _ _ (ident e) Hnd).
  - by rewrite list_lookup_fmap, Hi, Hid.
  - by rewrite list_lookup_fmap, He.
Qed.

(** *** Listings *)

Lemma current_elem_of es k :
  current es k = true → ∃ e, e ∈ es ∧ e_key e = k ∧ e_marker e = false.
Proof.
  unfold current. destruct (latest es k) as [e|] eqn:E; [|done].
  apply latest_elem_of in E as [??]. intros ?%negb_true_iff. eauto.
Qed.

Lemma elem_of_matching_keys es p k :
  k ∈ matching_keys es p ↔ current es k = true ∧ has_prefix p k = true.
Proof.
  unfold matching_keys.
  rewrite elem_of_sort_by, list_elem_of_filter, elem_of_remove_dups.
  split; [tauto|]. intros [Hc Hp]. split; [done|].
  apply current_elem_of in Hc as (e & He & <- & _).
  by apply list_elem_of_fmap_2.
Qed.

Lemma matching_keys_NoDup es p : NoDup (matching_keys es p).
Proof.
  unfold matching_keys. rewrite sort_by_perm.
  apply NoDup_filter, NoDup_remove_dups.
Qed.

Lemma matching_keys_sorted es p : StronglySorted String.le (matching_keys es p).
Proof. apply (sort_by_sorted id). Qed.

(** [list_objects_in_folder] on a bucket that exists: it prints one page
    of the matching keys, or that there is none. *)
Lemma list_objects_in_folder_page w name prefix b :
  buckets (remote w) !! name = Some b →
  list_objects_in_folder service name prefix w
  = (Ok tt,
     after w (remote w)
       match take max_keys (matching_keys (b_entries b) (Some prefix)) with
       | [] => ["No objects found in folder '" +:+ prefix +:+ "'."]
       | page =>
           ("Objects with a key that starts with '" +:+ prefix +:+ "':")
           :: page
       end
       (Client None) (ListObjectsV2 name (Some prefix))).
Proof.
  intros Hb. rewrite (list_objects_in_folder_run _ _ _ _ (Client None)) by done.
  cbn [service svc_list_objects_v2]. unfold do_list_objects_v2.
  change (sstate service) with state. rewrite Hb. cbn [Contents].
  destruct (take _ _) as [|k page]; [done|].
  rewrite <- list_fmap_compose. by rewrite list_fmap_id.
Qed.

(** When the matching keys fit one page, the page is all of them. *)
Lemma list_objects_in_folder_complete w name prefix b :
  buckets (remote w) !! name = Some b →
  length (matching_keys (b_entries b) (Some prefix)) ≤ max_keys →
  ∃ keys,
    list_objects_in_folder service name prefix w
    = (Ok tt,
       after w (remote w)
         (if keys is [] then ["No objects found in folder '" +:+ prefix +:+ "'."]
          else ("Objects with a key that starts with '" +:+ prefix +:+ "':")
               :: keys)
         (Client None) (ListObjectsV2 name (Some prefix)))
    ∧ StronglySorted String.le keys
    ∧ NoDup keys
    ∧ ∀ k, k ∈ keys ↔
           current (b_entries b) k = true ∧ String.prefix prefix k = true.
Proof.
  intros Hb Hlen. exists (matching_keys (b_entries b) (Some prefix)).
  rewrite (list_objects_in_folder_page _ _ _ b), take_ge by done.
  split_and!; [by destruct (matching_keys _ _)| | |].
  - apply matching_keys_sorted.
  - apply matching_keys_NoDup.
  - intros k. apply elem_of_matching_keys.
Qed.

(** [list_object_versions] on a bucket that exists: it prints the
    versions of one page of the matching entries. *)
Lemma list_object_versions_page w name prefix b :
  buckets (remote w) !! name = Some b →
  list_object_versions service name prefix w
  = (Ok tt,
     after w (remote w)
       ((to_version (b_entries b) <$>
         filter (λ e, e_marker e = false)
                (take max_keys (matching_entries (b_entries b) (Some prefix))))
        ≫= version_lines)
       (Client None) (ListObjectVersions name (Some prefix))).
Proof.
  intros Hb. rewrite (list_object_versions_run _ _ _ _ (Client None)) by done.
  cbn [service svc_list_object_versions]. unfold do_list_object_versions.
  change (sstate service) with state. rewrite Hb. cbn [Versions].
  by rewrite default_nonempty.
Qed.

(** *** The crowded bucket *)

Lemma latest_NoDup es e :
  NoDup (e_key <$> es) → e ∈ es → latest es (e_key e) = Some e.
Proof.
  induction es as [|x es IH]; intros Hnd He; [by apply elem_of_nil in He|].
  apply NoDup_cons in Hnd as [Hx Hnd].
  apply elem_of_cons in He as [->|He]; [apply latest_cons_eq|].
  unfold latest. rewrite filter_cons_False; [by apply IH|].
  intros Hk. apply Hx. rewrite Hk. by apply list_elem_of_fmap_2.
Qed.

Lemma length_numbered n : length (numbered n) = n.
Proof. unfold numbered. by rewrite length_fmap, length_rev, length_seq. Qed.

Lemma numbered_keys_NoDup n : NoDup (e_key <$> numbered n).
Proof.
  unfold numbered. rewrite <- list_fmap_compose.
  apply NoDup_fmap_2_strong;
    [|apply NoDup_ListNoDup, List.NoDup_rev, NoDup_ListNoDup, NoDup_seq].
  intros i j _ _ Hij. cbn in Hij. by apply (inj _), (inj pretty) in Hij.
Qed.

Lemma numbered_idents_NoDup n : NoDup (ident <$> numbered n).
Proof.
  eapply (NoDup_fmap_1 fst). rewrite <- list_fmap_compose.
  apply numbered_keys_NoDup.
Qed.

Lemma numbered_visible n e :
  e ∈ numbered n →
  current (numbered n) (e_key e) = true ∧
  String.prefix "images/" (e_key e) = true.
Proof.
  intros He. unfold current.
  rewrite (latest_NoDup _ e) by (done || apply numbered_keys_NoDup).
  unfold numbered in He. apply list_elem_of_fmap in He as (i & -> & _).
  split; [done|]. cbn. by destruct (pretty i).
Qed.

Lemma numbered_matching_keys n :
  length (matching_keys (numbered n) (Some "images/")) = n.
Proof.
  unfold matching_keys. rewrite length_sort_by, filter_all.
  - pose proof (numbered_keys_NoDup n) as Hnd.
    rewrite (NoDup_Permutation _ (e_key <$> numbered n)).
    + by rewrite length_fmap, length_numbered.
    + apply NoDup_remove_dups.
    + done.
    + intros k. apply elem_of_remove_dups.
  - intros k. rewrite elem_of_remove_dups.
    intros (e & -> & He)%list_elem_of_fmap. by apply numbered_visible.
Qed.
Lemma crowded_bucket :
  buckets crowded !! BUCKET_NAME
  = Some (Bucket Enabled (numbered 1001) None None).
Proof. apply lookup_singleton_eq. Qed.

Lemma length_versions_markers es :
  length (filter (λ e, e_marker e = false) es)
  + length (filter (λ e, e_marker e = true) es) = length es.
Proof.
  induction es as [|e es IH]; [done|].
  rewrite !filter_cons.
  destruct (e_marker e); repeat case_decide; try done; cbn [length]; lia.
Qed.

Lemma length_purge_idents es :
  length (purge_idents es) = min max_keys (length es).
Proof.
  unfold purge_idents.
  rewrite length_app, !length_fmap, length_versions_markers.
  unfold listed. by rewrite length_take, matching_entries_None.
Qed.

(** *** The purge, one page long or cut short *)

Lemma s3_delete_bucket_truncated w name b :
  buckets (remote w) !! name = Some b →
  NoDup (ident <$> b_entries b) →
  max_keys < length (b_entries b) →
  ∃ w' b',
    s3_delete_bucket service name true w
    = (Raise (client_error "BucketNotEmpty"), w')
    ∧ requests (issued w')
      = requests (issued w) ++ purge_log name (b_entries b)
    ∧ stdout w' = stdout w
    ∧ buckets (remote w') !! name = Some b'
    ∧ b_entries b' ≠ []
    ∧ b_entries b' ⊆ b_entries b.
Proof.
  intros Hb Hnd Hlen.
  pose proof (s3_delete_bucket_purge_run w name b Hb) as Hrun.
  cbn zeta in Hrun.
  pose proof (strike_rest _ Hnd Hlen) as Hrest.
  destruct (strike (b_entries b) _) as [|e rest] eqn:E;
    [exfalso; by apply Hrest|].
  eexists _, _. split; [exact Hrun|]. cbn [issued remote stdout].
  split_and!.
  - unfold requests, purge_log.
    rewrite fmap_app, fmap_cons, fmap_app, <- list_fmap_compose. done.
  - done.
  - unfold purged. cbn [buckets]. apply lookup_insert_eq.
  - cbn [b_entries with_entries]. by rewrite E.
  - cbn [b_entries with_entries]. rewrite E, <- E.
    intros x Hx. by apply elem_of_strike in Hx as [? _].
Qed.

Lemma s3_delete_bucket_one_page w name b :
  buckets (remote w) !! name = Some b →
  length (b_entries b) ≤ max_keys →
  ∃ w',
    s3_delete_bucket service name true w = (Ok (ok 204), w')
    ∧ requests (issued w')
      = requests (issued w) ++ purge_log name (b_entries b)
    ∧ stdout w' = stdout w
    ∧ buckets (remote w') !! name = None.
Proof.
  intros Hb Hlen.
  pose proof (s3_delete_bucket_purge_run w name b Hb) as Hrun.
  cbn zeta in Hrun. rewrite strike_all in Hrun by done.
  eexists. split; [exact Hrun|]. cbn [issued remote stdout].
  split_and!.
  - unfold requests, purge_log.
    rewrite fmap_app, fmap_cons, fmap_app, <- list_fmap_compose. done.
  - done.
  - cbn. apply lookup_delete_eq.
Qed.
(** *** More matching keys than one page holds *)

Lemma list_objects_in_folder_truncated w name prefix b :
  buckets (remote w) !! name = Some b →
  max_keys < length (matching_keys (b_entries b) (Some prefix)) →
  ∃ page k,
    list_objects_in_folder service name prefix w
    = (Ok tt,
       after w (remote w)
         (("Objects with a key that starts with '" +:+ prefix +:+ "':")
          :: page)
         (Client None) (ListObjectsV2 name (Some prefix)))
    ∧ length page = max_keys
    ∧ current (b_entries b) k = true
    ∧ String.prefix prefix k = true
    ∧ k ∉ page.
Proof.
  intros Hb Hlen. rewrite (list_objects_in_folder_page _ _ _ b) by done.
  set (keys := matching_keys (b_entries b) (Some prefix)) in *.
  destruct (lookup_lt_is_Some_2 keys max_keys Hlen) as [k Hk].
  exists (take max_keys keys), k.
  assert (length (take max_keys keys) = max_keys) as Hpage
    by (rewrite length_take; lia).
  split_and!.
  - destruct (take max_keys keys); [discriminate Hpage|reflexivity].
  - exact Hpage.
  - by eapply elem_of_matching_keys, list_elem_of_lookup_2.
  - by eapply (elem_of_matching_keys _ (Some prefix)), list_elem_of_lookup_2.
  - intros (i & Hi & Hlt)%elem_of_take.
    assert (i = max_keys); [|lia].
    eapply NoDup_lookup; [apply matching_keys_NoDup|exact Hi|exact Hk].
Qed.

(** *** Keys other than the one written *)

Lemma latest_without es k v k' :
  k ≠ k' → latest (filter (λ e, names k v e = false) es) k' = latest es k'.
Proof.
  intros Hk. unfold latest. f_equal.
  rewrite list_filter_filter. apply list_filter_iff. intros e.
  rewrite names_false. unfold ident. split; [tauto|].
  intros <-. split; [done|]. by intros [= ? _].
Qed.

Lemma current_put_object_other b k body t k' :
  k ≠ k' →
  current (b_entries (put_object b k body t)) k' = current (b_entries b) k'.
Proof.
  intros Hk. unfold current, put_object.
  destruct (b_versioning b); cbn [with_entries b_entries];
    unfold latest at 1; rewrite filter_cons_False by done;
    fold (latest (filter (λ e, names k null e = false) (b_entries b)) k');
    by rewrite ?latest_without.
Qed.

(** The deletions drawn from the reference service's own response. *)
Lemma purge_log_response name p s b response :
  buckets s !! name = Some b →
  (do_list_object_versions (Client None) name p s).1 = Ok response →
  purge_requests name response
  = (λ q, DeleteObject name q.1 (Some q.2)) <$>
      ((ident <$> filter (λ e, e_marker e = false)
                    (take max_keys (matching_entries (b_entries b) p))) ++
       (ident <$> filter (λ e, e_marker e = true)
                    (take max_keys (matching_entries (b_entries b) p)))).
Proof.
  intros Hb. unfold do_list_object_versions. rewrite Hb. cbn [fst].
  intros [= <-]. unfold purge_requests. cbn [Versions DeleteMarkers].
  by rewrite !default_nonempty, fmap_app, <- !list_fmap_compose.
Qed.
End RefS3Facts.

(** ** The reference service: names stay distinct *)

Section Invariant.
Implicit Types (s : state) (b : bucket) (e : entry) (es : list entry).

Lemma pretty_N_go_ne_n (x : N) (s r : string) :
  s ≠ "n" +:+ r → pretty_N_go x s ≠ "n" +:+ r.
Proof.
  revert s. induction (N.lt_wf_0 x) as [x _ IH]; intros s Hs.
  assert (x = 0 ∨ 0 < x)%N as [->|?] by lia.
  - by rewrite pretty_N_go_0.
  - rewrite pretty_N_go_step by done. apply IH.
    { by apply N.div_lt. }
    unfold pretty_N_char. by repeat case_match.
Qed.

Lemma pretty_ne_null (t : nat) : pretty t ≠ null.
Proof.
  unfold pretty, pretty_nat, pretty, pretty_N, null.
  case_decide; [done|]. by apply pretty_N_go_ne_n.
Qed.

Lemma drawn_before_mono t t' v : t ≤ t' → drawn_before t v → drawn_before t' v.
Proof. intros ? [?|(i & ? & ?)]; [by left|right; exists i; split; [lia|done]]. Qed.

Lemma wf_bucket_mono t t' b : t ≤ t' → wf_bucket t b → wf_bucket t' b.
Proof.
  intros ? [? Hd]. split; [done|]. intros e He.
  eapply drawn_before_mono; [done|]. by apply Hd.
Qed.

Lemma wf_bucket_without t b k v :
  wf_bucket t b →
  wf_bucket t (with_entries b (filter (λ e, names k v e = false) (b_entries b))).
Proof.
  intros [Hnd Hd]. split; cbn [with_entries b_entries].
  - eapply sublist_NoDup; [exact Hnd|apply fmap_sublist, sublist_filter].
  - intros e [_ He]%list_elem_of_filter. by apply Hd.
Qed.

Lemma wf_bucket_fresh_vid t b k m body :
  wf_bucket t b →
  wf_bucket (S t) (with_entries b (Entry k (pretty t) m body t :: b_entries b)).
Proof.
  intros [Hnd Hd]. split; cbn [with_entries b_entries].
  - rewrite fmap_cons. apply NoDup_cons. split; [|done].
    intros (e & [= Hk Hv] & He)%list_elem_of_fmap.
    destruct (Hd e He) as [Hnull|(i & Hi & Hpi)].
    + apply (pretty_ne_null t). congruence.
    + rewrite Hpi in Hv. apply (inj pretty) in Hv. lia.
  - intros e [->|He]%elem_of_cons.
    + right. exists t. split; [lia|done].
    + eapply drawn_before_mono; [|by apply Hd]. lia.
Qed.

Lemma wf_bucket_null_vid t b k m body :
  wf_bucket t b →
  wf_bucket (S t)
    (with_entries b (Entry k null m body t ::
                     filter (λ e, names k null e = false) (b_entries b))).
Proof.
  intros Hwf. apply (wf_bucket_without _ _ k null) in Hwf as [Hnd Hd].
  cbn [with_entries b_entries] in *. split; cbn [with_entries b_entries].
  - rewrite fmap_cons. apply NoDup_cons. split; [|done].
    intros (e & Hid & He)%list_elem_of_fmap.
    apply list_elem_of_filter in He as [Hn _].
    apply names_false in Hn. by apply Hn.
  - intros e [->|He]%elem_of_cons; [by left|].
    eapply drawn_before_mono; [|by apply Hd]. lia.
Qed.

Lemma wf_insert s name b bs t :
  wf s → wf_bucket t b → clock s ≤ t →
  bs = <[name := b]> (buckets s) →
  ∀ f ro, wf (State f bs t ro).
Proof.
  intros Hwf Hb Ht -> f ro name' b'. cbn [buckets clock].
  rewrite lookup_insert. case_decide.
  - by intros [= <-].
  - intros Hb'. eapply wf_bucket_mono; [done|]. by eapply Hwf.
Qed.

Lemma wf_fresh f ro : wf (State f ∅ 0 ro).
Proof. intros name b. cbn. by rewrite lookup_empty. Qed.

Lemma wf_update_bucket name (f : bucket → bucket) s :
  (∀ b, b_entries (f b) = b_entries b) →
  wf s → wf (update_bucket name f s).2.
Proof.
  intros Hf Hwf. unfold update_bucket.
  destruct (buckets s !! name) as [b|] eqn:Hb; [|done]. cbn [snd].
  eapply wf_insert; [done| |done|done].
  destruct (Hwf _ _ Hb) as [??]. split; by rewrite Hf.
Qed.

(** Every request leaves a well-formed state well formed. *)
Lemma wf_step c r s : wf s → wf (step c r s).
Proof.
  intros Hwf.
  destruct r as [name loc|filename name k|name k filename|name cfg|name policy
                 |name cfg|name p|name p|name k v|name]; cbn [step].
  - unfold do_create_bucket. destruct (buckets s !! name) eqn:Hb.
    + by case_bool_decide.
    + cbn [snd]. eapply wf_insert; [done| |done|done].
      split; [constructor|]. by intros e ?%elem_of_nil.
  - unfold do_upload_file. destruct (files s !! filename); [|done].
    destruct (buckets s !! name) as [b|] eqn:Hb; [|done]. cbn [snd].
    eapply wf_insert; [done| |lia|done].
    unfold put_object. destruct (b_versioning b);
      eauto using wf_bucket_fresh_vid, wf_bucket_null_vid.
  - unfold do_download_file. destruct (buckets s !! name) as [b|]; [|done].
    destruct (latest _ _) as [e|]; [|done]. destruct (e_marker e); [done|].
    destruct (writable s filename); [|done].
    cbn [snd]. intros name' b'. cbn. apply Hwf.
  - by apply wf_update_bucket.
  - by apply wf_update_bucket.
  - unfold do_put_bucket_versioning.
    repeat case_bool_decide; [| |done]; by apply wf_update_bucket.
  - unfold do_list_objects_v2. by destruct (buckets s !! name).
  - unfold do_list_object_versions. by destruct (buckets s !! name).
  - unfold do_delete_object. destruct (buckets s !! name) as [b|] eqn:Hb; [|done].
    cbn [snd]. eapply wf_insert; [done| |lia|done].
    pose proof (Hwf _ _ Hb) as Hb'.
    destruct v as [v|]; [|destruct (b_versioning b)];
      eauto using wf_bucket_fresh_vid, wf_bucket_null_vid, wf_bucket_mono,
                  wf_bucket_without.
  - unfold do_delete_bucket. destruct (buckets s !! name) as [b|] eqn:Hb; [|done].
    destruct (b_entries b); [|done]. cbn [snd].
    intros name' b'. cbn. rewrite lookup_delete. case_decide; [done|]. apply Hwf.
Qed.
End Invariant.

(** In every state the service reaches, the entries of a bucket have
    distinct (key, version id) names. *)
Lemma reachable_wf s : reachable s → wf s.
Proof.
  induction 1 as [fs ro|c r s _ IH|fs ro s _ IH].
  - apply wf_fresh.
  - by apply wf_step.
  - exact IH.
Qed.

Lemma reachable_NoDup s name b :
  reachable s → buckets s !! name = Some b → NoDup (ident <$> b_entries b).
Proof. intros Hs Hb. by destruct (reachable_wf s Hs name b Hb). Qed.

(** The states used below are states the service reaches. *)
Lemma lab_reached :
  lab = step (Client None) (PutBucketVersioning BUCKET_NAME versioning_config)
          (step (Client (Some AWS_DEFAULT_REGION)) (CreateBucket BUCKET_NAME None)
                (State lab_files ∅ 0 ∅)).
Proof. vm_compute. reflexivity. Qed.

Lemma marked_reached :
  marked
  = step (Client None) (DeleteObject BUCKET_NAME "images/AWS-Logo.png" None)
      (step (Client None)
            (UploadFile "data/images/v1/AWS-Logo.png" BUCKET_NAME
                        "images/AWS-Logo.png")
            lab).
Proof. vm_compute. reflexivity. Qed.

Lemma reachable_marked : reachable marked.
Proof.
  rewrite marked_reached, lab_reached. do 4 apply reach_step. apply reach_fresh.
Qed.

Lemma numbered_S n :
  numbered (S n)
  = Entry ("images/" +:+ pretty n) (pretty n) false "payload" n :: numbered n.
Proof. unfold numbered. by rewrite seq_S, rev_unit. Qed.

(** The crowded bucket is what [n] uploads of a local file, under the keys
    [images/0], [images/1], ..., leave in the lab's versioned bucket. *)
Lemma reachable_numbered n :
  reachable (State {[ "data/payload.bin" := "payload" ]}
                   {[ BUCKET_NAME := Bucket Enabled (numbered n) None None ]}
                   n ∅).
Proof.
  induction n as [|n IH].
  - replace (State _ _ 0 _)
      with (step (Client None)
                 (PutBucketVersioning BUCKET_NAME versioning_config)
                 (step (Client (Some AWS_DEFAULT_REGION))
                       (CreateBucket BUCKET_NAME None)
                       (State {[ "data/payload.bin" := "payload" ]} ∅ 0 ∅)))
      by (vm_compute; reflexivity).
    do 2 apply reach_step. apply reach_fresh.
  - replace (State _ _ (S n) _)
      with (step (Client None)
                 (UploadFile "data/payload.bin" BUCKET_NAME
                             ("images/" +:+ pretty n))
                 (State {[ "data/payload.bin" := "payload" ]}
                        {[ BUCKET_NAME :=
                             Bucket Enabled (numbered n) None None ]}
                        n ∅)).
    { by apply reach_step. }
    unfold step, do_upload_file. cbn [files buckets clock].
    rewrite !lookup_singleton_eq. cbn [snd].
    rewrite put_object_Enabled by done. cbn [with_entries b_entries
      b_versioning b_access b_policy].
    by rewrite insert_singleton_eq, numbered_S.
Qed.

Lemma reachable_crowded : reachable crowded.
Proof. apply (reach_files ∅ ∅ _ (reachable_numbered 1001)). Qed.

Lemma wf_crowded : wf crowded.
Proof.
  intros name b. unfold crowded. cbn [buckets clock].
  rewrite lookup_singleton. case_decide; [|done]. intros [= <-].
  split; [apply numbered_idents_NoDup|]. cbn [b_entries]. unfold numbered.
  intros e (i & -> & Hi)%list_elem_of_fmap. right. exists i. split; [|done].
  apply list_elem_of_In, in_rev, list_elem_of_In, elem_of_seq in Hi. lia.
Qed.

(** * The claims *)

(** ** C1: which functions stop an error at their boundary *)

(** C1, as the spec states it, fails: on an account without the bucket the
    remote call of [s3_public_access_setup], of
    [configure_bucket_versioning], of [s3_put_bucket_policy] and of
    [s3_delete_bucket] (with and without the purge) raises a ClientError,
    and each of these functions lets it reach its caller; nothing is
    printed. *)
Lemma C1_counterexample :
  s3_public_access_setup service BUCKET_NAME public_access_configuration
                         (boot fresh)
  = (Raise (client_error "NoSuchBucket"),
     World fresh []
           [(Client None,
             PutPublicAccessBlock BUCKET_NAME public_access_configuration)])
  ∧ configure_bucket_versioning service BUCKET_NAME versioning_config
                                (boot fresh)
    = (Raise (client_error "NoSuchBucket"),
       World fresh []
             [(Client None, PutBucketVersioning BUCKET_NAME versioning_config)])
  ∧ (∀ json_dumps policy,
       s3_put_bucket_policy service json_dumps BUCKET_NAME policy (boot fresh)
       = (Raise (client_error "NoSuchBucket"),
          World fresh []
                [(Client None,
                  PutBucketPolicy BUCKET_NAME (json_dumps policy))]))
  ∧ s3_delete_bucket service BUCKET_NAME false (boot fresh)
    = (Raise (client_error "NoSuchBucket"),
       World fresh [] [(Client None, DeleteBucket BUCKET_NAME)])
  ∧ s3_delete_bucket service BUCKET_NAME true (boot fresh)
    = (Raise (client_error "NoSuchBucket"),
       World fresh [] [(Client None, ListObjectVersions BUCKET_NAME None)]).
Proof. repeat split; intros; vm_compute; reflexivity. Qed.

(** C1, amended: once the client of the call is built, no [Exception]
    leaves [create_s3_bucket], [upload_file_to_s3] or
    [download_object_from_s3]: they turn every [Exception] their remote
    call raises into one printed line and return normally;
    [s3_public_access_setup], [s3_put_bucket_policy],
    [configure_bucket_versioning], [s3_delete_bucket],
    [list_objects_in_folder] and [list_object_versions] have no handler:
    what a remote call of theirs raises leaves them unchanged and nothing
    is printed.  For [s3_delete_bucket] with [delete_objects=True] that is
    so for the listing, for the deletions of both loops (the first one
    that raises ends the function, with its exception and with no call
    after it) and for the bucket deletion that follows them. *)
Theorem C1_error_boundary (svc : Service) (json_dumps : json → string)
    (w : world (sstate svc)) (c : client) :
  (∀ bucket region,
     svc_client svc (Some region) (remote w) = Ok c →
     (∀ cls msg,
        (create_s3_bucket svc bucket region w).1 ≠ Raise (Error cls msg))
     ∧ (∀ cls msg s',
          svc_create_bucket svc c bucket None (remote w)
          = (Raise (Error cls msg), s') →
          create_s3_bucket svc bucket region w
          = (Ok tt, after w s' ["An error occurred: " +:+ msg]
                          c (CreateBucket bucket None))))
  ∧ (svc_client svc None (remote w) = Ok c →
     (∀ path bucket key cls msg,
        (upload_file_to_s3 svc path bucket key w).1 ≠ Raise (Error cls msg))
     ∧ (∀ bucket key path cls msg,
          (download_object_from_s3 svc bucket key path w).1
          ≠ Raise (Error cls msg))
     ∧ (∀ path bucket key cls msg s',
          svc_upload_file svc c path bucket key (remote w)
          = (Raise (Error cls msg), s') →
          upload_file_to_s3 svc path bucket key w
          = (Ok tt, after w s' ["Error uploading file to S3: " +:+ msg]
                          c (UploadFile path bucket key)))
     ∧ (∀ bucket key path cls msg s',
          svc_download_file svc c bucket key path (remote w)
          = (Raise (Error cls msg), s') →
          download_object_from_s3 svc bucket key path w
          = (Ok tt,
             after w s' ["Error downloading or printing JSON file: " +:+ msg]
                   c (DownloadFile bucket key path)))
     ∧ (∀ bucket cfg e s',
          svc_put_public_access_block svc c bucket cfg (remote w)
          = (Raise e, s') →
          s3_public_access_setup svc bucket cfg w
          = (Raise e, after w s' [] c (PutPublicAccessBlock bucket cfg)))
     ∧ (∀ bucket policy e s',
          svc_put_bucket_policy svc c bucket (json_dumps policy) (remote w)
          = (Raise e, s') →
          s3_put_bucket_policy svc json_dumps bucket policy w
          = (Raise e,
             after w s' [] c (PutBucketPolicy bucket (json_dumps policy))))
     ∧ (∀ bucket cfg e s',
          svc_put_bucket_versioning svc c bucket cfg (remote w)
          = (Raise e, s') →
          configure_bucket_versioning svc bucket cfg w
          = (Raise e, after w s' [] c (PutBucketVersioning bucket cfg)))
     ∧ (∀ bucket prefix e s',
          svc_list_objects_v2 svc c bucket (Some prefix) (remote w)
          = (Raise e, s') →
          list_objects_in_folder svc bucket prefix w
          = (Raise e, after w s' [] c (ListObjectsV2 bucket (Some prefix))))
     ∧ (∀ bucket prefix e s',
          svc_list_object_versions svc c bucket (Some prefix) (remote w)
          = (Raise e, s') →
          list_object_versions svc bucket prefix w
          = (Raise e,
             after w s' [] c (ListObjectVersions bucket (Some prefix))))
     ∧ (∀ bucket e s',
          svc_delete_bucket svc c bucket (remote w) = (Raise e, s') →
          s3_delete_bucket svc bucket false w
          = (Raise e, after w s' [] c (DeleteBucket bucket)))
     ∧ (∀ bucket e s',
          svc_list_object_versions svc c bucket None (remote w)
          = (Raise e, s') →
          s3_delete_bucket svc bucket true w
          = (Raise e, after w s' [] c (ListObjectVersions bucket None)))
     ∧ (∀ bucket response s1 e s2 n,
          svc_list_object_versions svc c bucket None (remote w)
          = (Ok response, s1) →
          delete_each svc c bucket (purge_targets response) s1
          = (Some e, s2, n) →
          s3_delete_bucket svc bucket true w
          = (Raise e,
             World s2 (stdout w)
                   (issued w ++ (c, ListObjectVersions bucket None)
                    :: ((c,.) <$> take n (purge_requests bucket response)))))
     ∧ (∀ bucket response s1 s2 n e s3,
          svc_list_object_versions svc c bucket None (remote w)
          = (Ok response, s1) →
          delete_each svc c bucket (purge_targets response) s1
          = (None, s2, n) →
          svc_delete_bucket svc c bucket s2 = (Raise e, s3) →
          s3_delete_bucket svc bucket true w
          = (Raise e,
             World s3 (stdout w)
                   (issued w ++ (c, ListObjectVersions bucket None)
                    :: ((c,.) <$> purge_requests bucket response)
                    ++ [(c, DeleteBucket bucket)])))).
Proof.
  split.
  - intros bucket region Hc. rewrite (create_s3_bucket_run _ _ _ _ _ Hc).
    split.
    + intros cls msg. by destruct (svc_create_bucket _ _ _ _ _) as [[?|[]] ?].
    + by intros cls msg s' ->.
  - intros Hc. split_and!.
    + intros *. rewrite (upload_file_to_s3_run _ _ _ _ _ _ Hc).
      by destruct (svc_upload_file _ _ _ _ _ _) as [[?|[]] ?].
    + intros *. rewrite (download_object_from_s3_run _ _ _ _ _ _ Hc).
      by destruct (svc_download_file _ _ _ _ _ _) as [[?|[]] ?].
    + intros * H. by rewrite (upload_file_to_s3_run _ _ _ _ _ _ Hc), H.
    + intros * H. by rewrite (download_object_from_s3_run _ _ _ _ _ _ Hc), H.
    + intros * H. by rewrite (s3_public_access_setup_run _ _ _ _ _ Hc), H.
    + intros * H. by rewrite (s3_put_bucket_policy_run _ _ _ _ _ _ Hc), H.
    + intros * H. by rewrite (configure_bucket_versioning_run _ _ _ _ _ Hc), H.
    + intros * H. by rewrite (list_objects_in_folder_run _ _ _ _ _ Hc), H.
    + intros * H. by rewrite (list_object_versions_run _ _ _ _ _ Hc), H.
    + intros * H. by rewrite (s3_delete_bucket_direct _ _ _ _ Hc), H.
    + intros * H. py_unfold. rewrite Hc, H. cbn. by rewrite app_nil_r.
    + intros * Hl Hd.
      by rewrite (s3_delete_bucket_purge_outcome _ _ _ _ _ _ Hc Hl), Hd.
    + intros * Hl Hd Hb.
      by rewrite (s3_delete_bucket_purge_outcome _ _ _ _ _ _ Hc Hl), Hd, Hb.
Qed.

(** The theorem at work on the reference service: the file to upload is
    missing; the bucket to configure is missing; and, with the image
    under a retention lock, the first deletion of the purge is refused
    and the refusal leaves [s3_delete_bucket] before any other call. *)
Lemma C1_error_boundary_witness :
  upload_file_to_s3 service "data/missing.csv" BUCKET_NAME "csv/missing.csv"
                    (boot fresh)
  = (Ok tt,
     World fresh ["Error uploading file to S3: data/missing.csv"]
           [(Client None,
             UploadFile "data/missing.csv" BUCKET_NAME "csv/missing.csv")])
  ∧ s3_public_access_setup service BUCKET_NAME public_access_configuration
                           (boot fresh)
    = (Raise (client_error "NoSuchBucket"),
       World fresh []
             [(Client None,
               PutPublicAccessBlock BUCKET_NAME public_access_configuration)])
  ∧ s3_delete_bucket (retaining "images/AWS-Logo.png") BUCKET_NAME true
                     (boot marked)
    = (Raise (client_error "AccessDenied"),
       World marked []
             [ (Client None, ListObjectVersions BUCKET_NAME None);
               (Client None,
                DeleteObject BUCKET_NAME "images/AWS-Logo.png" (Some "0")) ]).
Proof.
  destruct (C1_error_boundary service (λ _, "") (boot fresh) (Client None))
    as [_ Hnone].
  destruct (Hnone eq_refl) as (_ & _ & Hupload & _ & Hsetup & _).
  destruct (C1_error_boundary (retaining "images/AWS-Logo.png") (λ _, "")
              (boot marked) (Client None)) as [_ Hheld].
  destruct (Hheld eq_refl) as (_ & _ & _ & _ & _ & _ & _ & _ & _ & _ & _
                               & Hpurge & _).
  split_and!.
  - apply (Hupload "data/missing.csv" BUCKET_NAME "csv/missing.csv"
                   "FileNotFoundError" "data/missing.csv" fresh).
    reflexivity.
  - apply (Hsetup BUCKET_NAME public_access_configuration
                  (client_error "NoSuchBucket") fresh).
    reflexivity.
  - apply (Hpurge BUCKET_NAME
             {| Versions :=
                  Some [ {| Key := "images/AWS-Logo.png"; VersionId := "0";
                            IsLatest := false; LastModified := "0" |} ];
                DeleteMarkers :=
                  Some [ {| dm_Key := "images/AWS-Logo.png";
                            dm_VersionId := "1"; dm_IsLatest := true;
                            dm_LastModified := "1" |} ];
                IsTruncated := false |}
             marked (client_error "AccessDenied") marked 1).
    + vm_compute. reflexivity.
    + reflexivity.
Defined.


(** ** C2: the purge of [s3_delete_bucket] on a bucket of 1001 versions *)

(** C2 at its failing input: the lab's bucket holds 1001 versions; the one
    listing response names 1000 of them, [s3_delete_bucket] with
    [delete_objects=True] sends 1000 deletions and then asks for the
    bucket's deletion, which the service refuses because a version is
    left: the call raises BucketNotEmpty and the bucket stays. *)
Theorem C2_purge_stops_after_one_page :
  ∃ w' b' deletions,
    s3_delete_bucket service BUCKET_NAME true (boot crowded)
    = (Raise (client_error "BucketNotEmpty"), w')
    ∧ requests (issued w')
      = ListObjectVersions BUCKET_NAME None :: deletions
        ++ [DeleteBucket BUCKET_NAME]
    ∧ length deletions = 1000
    ∧ buckets (remote w') !! BUCKET_NAME = Some b'
    ∧ b_entries b' ≠ []
    ∧ length (numbered 1001) = 1001.
Proof.
  destruct (s3_delete_bucket_truncated (boot crowded) BUCKET_NAME
              (Bucket Enabled (numbered 1001) None None))
    as (w' & b' & Hrun & Hlog & _ & Hb' & Hne & _).
  - exact crowded_bucket.
  - apply numbered_idents_NoDup.
  - cbn [b_entries]. rewrite length_numbered. unfold max_keys. lia.
  - exists w', b'. eexists. split; [exact Hrun|].
    split; [exact Hlog|]. split_and!; try assumption.
    + rewrite length_fmap, length_purge_idents. cbn [b_entries].
      rewrite length_numbered. reflexivity.
    + apply length_numbered.
Qed.

(** ** C3: upload, then download *)

(** C3: on the reference service, for every bucket that exists, every key,
    every local file with its payload and every download path at which a
    file can be written, [upload_file_to_s3] followed by
    [download_object_from_s3] of the same bucket and key both return
    normally, print the success line of the upload and no error, and leave
    at the download path the bytes of the uploaded file. *)
Theorem C3_upload_download_round_trip (w : world state)
    (bucket key source target payload : string) (b : RefS3.bucket) :
  buckets (remote w) !! bucket = Some b →
  files (remote w) !! source = Some payload →
  writable (remote w) target = true →
  ∃ w1 w2,
    upload_file_to_s3 service source bucket key w = (Ok tt, w1)
    ∧ download_object_from_s3 service bucket key target w1 = (Ok tt, w2)
    ∧ files (remote w2) !! target = Some payload
    ∧ stdout w2
      = stdout w ++ ["File " +:+ source +:+ " uploaded to s3://" +:+ bucket
                     +:+ "/" +:+ key +:+ " successfully."].
Proof.
  intros Hb Hf Hw.
  rewrite (upload_file_to_s3_run _ _ _ _ _ (Client None)) by done.
  cbn [service svc_upload_file]. unfold do_upload_file.
  change (sstate service) with state. rewrite Hf, Hb.
  eexists _, _. split; [done|].
  rewrite (download_object_from_s3_run _ _ _ _ _ (Client None)) by done.
  cbn [service svc_download_file after remote stdout issued].
  unfold do_download_file. cbn [buckets files clock].
  rewrite lookup_insert_eq.
  destruct (put_object_entries b key payload (clock (remote w)))
    as (old & -> & _).
  rewrite (latest_cons_eq (Entry key _ false payload _)).
  unfold writable in *. cbn [readonly]. rewrite Hw.
  cbn [e_marker e_body]. split; [done|]. cbn [remote stdout files].
  split; [apply lookup_insert_eq|].
  unfold after. cbn [stdout]. by rewrite app_nil_r.
Qed.

(** The round trip in the lab: the JSON file, uploaded under the
    notebook's key and downloaded again. *)
Lemma C3_upload_download_round_trip_witness :
  ∃ w1 w2,
    upload_file_to_s3 service local_file_path_json BUCKET_NAME object_key_json
                      (boot lab) = (Ok tt, w1)
    ∧ download_object_from_s3 service BUCKET_NAME object_key_json
        "./downloads/delivery-stream-one-record.json" w1 = (Ok tt, w2)
    ∧ files (remote w2) !! "./downloads/delivery-stream-one-record.json"
      = Some "{}"
    ∧ stdout w2
      = stdout (boot lab)
        ++ ["File " +:+ local_file_path_json +:+ " uploaded to s3://"
            +:+ BUCKET_NAME +:+ "/" +:+ object_key_json +:+ " successfully."].
Proof.
  apply (C3_upload_download_round_trip (boot lab) BUCKET_NAME object_key_json
           local_file_path_json "./downloads/delivery-stream-one-record.json"
           "{}" (Bucket Enabled [] None None)).
  - vm_compute. reflexivity.
  - vm_compute. reflexivity.
  - vm_compute. reflexivity.
Defined.

(** ** C4: two uploads of one key into a versioned bucket *)

(** C4: on the reference service, in a bucket whose versioning is Enabled,
    uploading two local files under the same key (whatever their payloads)
    adds two versions on top of what the bucket held: their version ids
    differ, the later upload is reported with IsLatest true and the earlier
    one with IsLatest false. *)
Theorem C4_two_uploads_two_versions (w : world state)
    (bucket key path1 path2 payload1 payload2 : string) (b : RefS3.bucket) :
  buckets (remote w) !! bucket = Some b →
  b_versioning b = Enabled →
  files (remote w) !! path1 = Some payload1 →
  files (remote w) !! path2 = Some payload2 →
  ∃ w' b' e1 e2,
    (upload_file_to_s3 service path1 bucket key;;
     upload_file_to_s3 service path2 bucket key)%py w = (Ok tt, w')
    ∧ buckets (remote w') !! bucket = Some b'
    ∧ b_entries b' = e2 :: e1 :: b_entries b
    ∧ e_key e1 = key ∧ e_body e1 = payload1 ∧ e_marker e1 = false
    ∧ e_key e2 = key ∧ e_body e2 = payload2 ∧ e_marker e2 = false
    ∧ e_vid e1 ≠ e_vid e2
    ∧ IsLatest (to_version (b_entries b') e2) = true
    ∧ IsLatest (to_version (b_entries b') e1) = false.
Proof.
  intros Hb Hv Hf1 Hf2. unfold bind.
  rewrite (upload_file_to_s3_run _ _ _ _ _ (Client None)) by done.
  cbn [service svc_upload_file]. unfold do_upload_file.
  change (sstate service) with state. rewrite Hf1, Hb.
  rewrite (upload_file_to_s3_run _ _ _ _ _ (Client None)) by done.
  cbn [service svc_upload_file after remote stdout issued].
  unfold do_upload_file. cbn [buckets files clock].
  rewrite Hf2, lookup_insert_eq, insert_insert_eq.
  rewrite (put_object_Enabled b) by done.
  rewrite put_object_Enabled by done. cbn [with_entries b_entries].
  set (t := clock (remote w)).
  eexists _, _, (Entry key (pretty t) false payload1 t),
    (Entry key (pretty (S t)) false payload2 (S t)).
  split; [done|]. cbn [remote buckets]. split; [apply lookup_insert_eq|].
  cbn [b_entries e_key e_body e_marker e_vid]. split_and!; try done.
  - intros Heq%(inj pretty). lia.
  - cbn. unfold is_latest. rewrite latest_cons_eq. by apply bool_decide_eq_true.
  - cbn. unfold is_latest. cbn [e_key].
    rewrite (latest_cons_eq (Entry key _ false payload2 _)).
    apply bool_decide_eq_false. intros [= Heq%(inj pretty)]. lia.
Qed.

(** The two logos of the lab, uploaded under one key. *)
Lemma C4_two_uploads_two_versions_witness :
  ∃ w' b' e1 e2,
    (upload_file_to_s3 service "data/images/v1/AWS-Logo.png" BUCKET_NAME
                       "images/AWS-Logo.png";;
     upload_file_to_s3 service "data/images/v2/AWS-Logo.png" BUCKET_NAME
                       "images/AWS-Logo.png")%py (boot lab) = (Ok tt, w')
    ∧ buckets (remote w') !! BUCKET_NAME = Some b'
    ∧ b_entries b' = e2 :: e1 :: []
    ∧ e_key e1 = "images/AWS-Logo.png" ∧ e_body e1 = "PNG 1"
    ∧ e_marker e1 = false
    ∧ e_key e2 = "images/AWS-Logo.png" ∧ e_body e2 = "PNG 2"
    ∧ e_marker e2 = false
    ∧ e_vid e1 ≠ e_vid e2
    ∧ IsLatest (to_version (b_entries b') e2) = true
    ∧ IsLatest (to_version (b_entries b') e1) = false.
Proof.
  apply (C4_two_uploads_two_versions (boot lab) BUCKET_NAME
           "images/AWS-Logo.png" "data/images/v1/AWS-Logo.png"
           "data/images/v2/AWS-Logo.png" "PNG 1" "PNG 2"
           (Bucket Enabled [] None None)).
  - vm_compute. reflexivity.
  - reflexivity.
  - vm_compute. reflexivity.
  - vm_compute. reflexivity.
Defined.

(** ** C5: [list_objects_in_folder] on a bucket of 1001 objects *)

(** C5 at its failing input: the lab's bucket holds 1001 current objects
    whose key starts with [images/]; [list_objects_in_folder] returns
    normally and prints the header and 1000 keys, one page, so that a
    current key with the prefix is not among the lines printed. *)
Theorem C5_listing_stops_after_one_page :
  ∃ w' k,
    list_objects_in_folder service BUCKET_NAME "images/" (boot crowded)
    = (Ok tt, w')
    ∧ length (stdout w') = 1001
    ∧ length (matching_keys (numbered 1001) (Some "images/")) = 1001
    ∧ current (numbered 1001) k = true
    ∧ String.prefix "images/" k = true
    ∧ k ∉ stdout w'.
Proof.
  destruct (list_objects_in_folder_truncated (boot crowded) BUCKET_NAME
              "images/" (Bucket Enabled (numbered 1001) None None))
    as (page & k & Hrun & Hlen & Hcur & Hpre & Hk).
  - exact crowded_bucket.
  - cbn [b_entries]. rewrite numbered_matching_keys. unfold max_keys. lia.
  - eexists _, k. split; [exact Hrun|]. cbn [after stdout boot app].
    split_and!.
    + cbn [length]. by rewrite Hlen.
    + apply numbered_matching_keys.
    + exact Hcur.
    + exact Hpre.
    + apply not_elem_of_cons. split; [|exact Hk].
      intros ->. discriminate Hpre.
Qed.

(** ** C6: what [list_object_versions] shows *)

(** C6, as the spec states it, fails: in the lab's bucket after a delete the
    service answers the listing of [images/] with one version and one
    delete marker; [list_object_versions] prints the five lines of the
    version and nothing of the delete marker. *)
Lemma C6_counterexample :
  (do_list_object_versions (Client None) BUCKET_NAME (Some "images/") marked).1
  = Ok {| Versions :=
            Some [ {| Key := "images/AWS-Logo.png"; VersionId := "0";
                      IsLatest := false; LastModified := "0" |} ];
          DeleteMarkers :=
            Some [ {| dm_Key := "images/AWS-Logo.png"; dm_VersionId := "1";
                      dm_IsLatest := true; dm_LastModified := "1" |} ];
          IsTruncated := false |}
  ∧ list_object_versions service BUCKET_NAME "images/" (boot marked)
    = (Ok tt,
       World marked
             [ "Object Key: images/AWS-Logo.png"; "Object Version Id: 0";
               "Is Latest: False"; "Last Modified: 0"; "" ]
             [(Client None, ListObjectVersions BUCKET_NAME (Some "images/"))]).
Proof. split; vm_compute; reflexivity. Qed.

(** C6, amended: [list_object_versions] prints the key, version id, latest
    flag and last-modified time of every element of the response's
    [Versions], in order, and nothing for its [DeleteMarkers], over any
    client; on the reference service, for a bucket that exists and a prefix
    whose versions and delete markers fit one listing response, the
    versions printed are all the retained versions whose key starts with
    the prefix, and no delete marker. *)
Theorem C6_versions_shown_markers_not :
  (∀ (svc : Service) (w : world (sstate svc)) (c : client)
     (bucket prefix : string) (response : ListObjectVersionsOutput)
     (s' : sstate svc),
     svc_client svc None (remote w) = Ok c →
     svc_list_object_versions svc c bucket (Some prefix) (remote w)
     = (Ok response, s') →
     list_object_versions svc bucket prefix w
     = (Ok tt,
        after w s' (default [] (Versions response) ≫= version_lines)
              c (ListObjectVersions bucket (Some prefix))))
  ∧ (∀ (w : world state) (bucket prefix : string) (b : RefS3.bucket),
       buckets (remote w) !! bucket = Some b →
       length (matching_entries (b_entries b) (Some prefix)) ≤ max_keys →
       ∃ shown,
         list_object_versions service bucket prefix w
         = (Ok tt,
            after w (remote w)
                  ((to_version (b_entries b) <$> shown) ≫= version_lines)
                  (Client None) (ListObjectVersions bucket (Some prefix)))
         ∧ ∀ e, e ∈ shown ↔
                e ∈ b_entries b ∧ e_marker e = false
                ∧ String.prefix prefix (e_key e) = true).
Proof.
  split.
  - intros svc w c bucket prefix response s' Hc Hcall.
    by rewrite (list_object_versions_run _ _ _ _ c), Hcall.
  - intros w bucket prefix b Hb Hlen. eexists. split.
    + rewrite (list_object_versions_page _ _ _ b) by done.
      rewrite take_ge by done. reflexivity.
    + intros e. rewrite list_elem_of_filter, elem_of_matching_entries.
      unfold has_prefix. cbn [default]. tauto.
Qed.

(** The amended statement on the bucket of the counterexample: the version
    is shown, the delete marker is not. *)
Lemma C6_versions_shown_markers_not_witness :
  ∃ shown,
    list_object_versions service BUCKET_NAME "images/" (boot marked)
    = (Ok tt,
       after (boot marked) marked
             ((to_version marked_entries <$> shown) ≫= version_lines)
             (Client None) (ListObjectVersions BUCKET_NAME (Some "images/")))
    ∧ ∀ e, e ∈ shown ↔
           e ∈ marked_entries ∧ e_marker e = false
           ∧ String.prefix "images/" (e_key e) = true.
Proof.
  destruct C6_versions_shown_markers_not as [_ Hshown].
  apply (Hshown (boot marked) BUCKET_NAME "images/"
                (Bucket Enabled marked_entries None None)).
  - vm_compute. reflexivity.
  - vm_compute. lia.
Defined.

(** ** C7: a bucket is deleted only when it is empty *)

(** C7: on the reference service, for a bucket that exists,
    [s3_delete_bucket] without the purge raises BucketNotEmpty and changes
    nothing when the bucket holds a version or a delete marker; it
    succeeds and the bucket is gone when the bucket holds none; and with
    the purge, on a bucket whose entries fit one listing response, every
    entry is removed and the deletion succeeds. *)
Theorem C7_bucket_deleted_only_when_empty (w : world state)
    (bucket : string) (b : RefS3.bucket) :
  buckets (remote w) !! bucket = Some b →
  (b_entries b ≠ [] →
   s3_delete_bucket service bucket false w
   = (Raise (client_error "BucketNotEmpty"),
      after w (remote w) [] (Client None) (DeleteBucket bucket)))
  ∧ (b_entries b = [] →
     ∃ w', s3_delete_bucket service bucket false w = (Ok (ok 204), w')
           ∧ buckets (remote w') !! bucket = None)
  ∧ (length (b_entries b) ≤ max_keys →
     ∃ w', s3_delete_bucket service bucket true w = (Ok (ok 204), w')
           ∧ buckets (remote w') !! bucket = None).
Proof.
  intros Hb. split_and!.
  - intros Hne.
    rewrite (s3_delete_bucket_direct _ _ _ (Client None)) by done.
    cbn [service svc_delete_bucket]. unfold do_delete_bucket.
    change (sstate service) with state. rewrite Hb.
    by destruct (b_entries b).
  - intros Hnil.
    rewrite (s3_delete_bucket_direct _ _ _ (Client None)) by done.
    cbn [service svc_delete_bucket]. unfold do_delete_bucket.
    change (sstate service) with state. rewrite Hb, Hnil.
    eexists. split; [done|]. cbn. apply lookup_delete_eq.
  - intros Hlen.
    destruct (s3_delete_bucket_one_page w bucket b Hb Hlen)
      as (w' & Hrun & _ & _ & Hgone).
    eauto.
Qed.

(** The bucket with a version and a delete marker: refused as it is,
    deleted after the purge. *)
Lemma C7_bucket_deleted_only_when_empty_witness :
  s3_delete_bucket service BUCKET_NAME false (boot marked)
  = (Raise (client_error "BucketNotEmpty"),
     after (boot marked) marked [] (Client None) (DeleteBucket BUCKET_NAME))
  ∧ ∃ w', s3_delete_bucket service BUCKET_NAME true (boot marked)
          = (Ok (ok 204), w')
          ∧ buckets (remote w') !! BUCKET_NAME = None.
Proof.
  destruct (C7_bucket_deleted_only_when_empty (boot marked) BUCKET_NAME
              (Bucket Enabled
                      marked_entries
                      None None))
    as (Hrefused & _ & Hpurged).
  - vm_compute. reflexivity.
  - split.
    + apply Hrefused. discriminate.
    + apply Hpurged. vm_compute. lia.
Defined.

(** ** C8: the key of the JSON upload *)

(** C8: cell 10 uploads [data/json/delivery-stream-one-record.json] under
    the key [json/json/delivery-stream-one-record.json], which starts with
    [json/json/]: over any client this is the one request the cell sends,
    and on the reference service, when the bucket and the file exist, the
    payload is afterwards the current version of that key, while the key
    with a single [json/] is as visible as it was before. *)
Theorem C8_json_key_is_doubled :
  object_key_json = "json/json/delivery-stream-one-record.json"
  ∧ String.prefix "json/json/" object_key_json = true
  ∧ (∀ (svc : Service) (w : world (sstate svc)) (c : client),
       svc_client svc None (remote w) = Ok c →
       issued (cell_10 svc w).2
       = issued w
         ++ [(c, UploadFile "data/json/delivery-stream-one-record.json"
                            BUCKET_NAME
                            "json/json/delivery-stream-one-record.json")])
  ∧ (∀ (w : world state) (b : RefS3.bucket) (payload : string),
       buckets (remote w) !! BUCKET_NAME = Some b →
       files (remote w) !! local_file_path_json = Some payload →
       ∃ w' b' e,
         cell_10 service w = (Ok tt, w')
         ∧ buckets (remote w') !! BUCKET_NAME = Some b'
         ∧ latest (b_entries b') "json/json/delivery-stream-one-record.json"
           = Some e
         ∧ e_body e = payload ∧ e_marker e = false
         ∧ current (b_entries b') "json/delivery-stream-one-record.json"
           = current (b_entries b) "json/delivery-stream-one-record.json").
Proof.
  split_and!; [done|done| |].
  - intros svc w c Hc. unfold cell_10.
    rewrite (upload_file_to_s3_run _ _ _ _ _ c) by done.
    by destruct (svc_upload_file _ _ _ _ _ _) as [[?|[]] ?].
  - intros w b payload Hb Hf. unfold cell_10.
    rewrite (upload_file_to_s3_run _ _ _ _ _ (Client None)) by done.
    cbn [service svc_upload_file]. unfold do_upload_file.
    change (sstate service) with state. rewrite Hf, Hb.
    destruct (put_object_entries b object_key_json payload (clock (remote w)))
      as (old & Hput & _).
    eexists _, _, _. split; [done|]. cbn [after remote buckets].
    split; [apply lookup_insert_eq|]. rewrite Hput.
    split; [apply (latest_cons_eq (Entry object_key_json _ false payload _))|].
    split; [done|]. split; [done|].
    rewrite <- Hput. by apply current_put_object_other.
Qed.

(** Cell 10 in the lab. *)
Lemma C8_json_key_is_doubled_witness :
  issued (cell_10 service (boot lab)).2
  = [(Client None,
      UploadFile "data/json/delivery-stream-one-record.json" BUCKET_NAME
                 "json/json/delivery-stream-one-record.json")]
  ∧ ∃ w' b' e,
      cell_10 service (boot lab) = (Ok tt, w')
      ∧ buckets (remote w') !! BUCKET_NAME = Some b'
      ∧ latest (b_entries b') "json/json/delivery-stream-one-record.json"
        = Some e
      ∧ e_body e = "{}" ∧ e_marker e = false
      ∧ current (b_entries b') "json/delivery-stream-one-record.json"
        = current [] "json/delivery-stream-one-record.json".
Proof.
  destruct C8_json_key_is_doubled as (_ & _ & Hsent & Hstored).
  split.
  - apply (Hsent service (boot lab) (Client None)). reflexivity.
  - apply (Hstored (boot lab) (Bucket Enabled [] None None) "{}").
    + vm_compute. reflexivity.
    + vm_compute. reflexivity.
Defined.

(** ** C9: the purge works from one listing response *)

(** C9: [s3_delete_bucket] with [delete_objects=True] sends one listing
    request and then, in order, deletions drawn from the versions and the
    delete markers of that one response and the bucket deletion, over any
    client; on the reference service, for a bucket that exists, whose
    entries have distinct (key, version id) names (as in every state the
    service reaches) and whose listing response is truncated, all these
    requests are sent, entries of the bucket are still there when the
    bucket deletion is requested, the deletion is refused and the bucket
    stays with them. *)
Theorem C9_purge_uses_one_listing_response :
  (∀ (svc : Service) (w : world (sstate svc)) (c : client) (bucket : string)
     (response : ListObjectVersionsOutput) (s1 : sstate svc),
     svc_client svc None (remote w) = Ok c →
     svc_list_object_versions svc c bucket None (remote w)
     = (Ok response, s1) →
     ∃ sent,
       sent `prefix_of` purge_requests bucket response ++ [DeleteBucket bucket]
       ∧ issued (s3_delete_bucket svc bucket true w).2
         = issued w ++ (c, ListObjectVersions bucket None) :: ((c,.) <$> sent))
  ∧ (∀ (w : world state) (bucket : string) (b : RefS3.bucket)
       (response : ListObjectVersionsOutput),
       buckets (remote w) !! bucket = Some b →
       NoDup (ident <$> b_entries b) →
       (do_list_object_versions (Client None) bucket None (remote w)).1
       = Ok response →
       IsTruncated response = true →
       ∃ w' b',
         s3_delete_bucket service bucket true w
         = (Raise (client_error "BucketNotEmpty"), w')
         ∧ requests (issued w')
           = requests (issued w)
             ++ ListObjectVersions bucket None
                :: purge_requests bucket response ++ [DeleteBucket bucket]
         ∧ buckets (remote w') !! bucket = Some b'
         ∧ b_entries b' ≠ []
         ∧ b_entries b' ⊆ b_entries b).
Proof.
  split; [intros *; apply s3_delete_bucket_requests|].
  intros w bucket b response Hb Hnd Hresp Htrunc.
  assert (max_keys < length (b_entries b)) as Hlen.
  { revert Hresp Htrunc. unfold do_list_object_versions. rewrite Hb. cbn [fst].
    intros [= <-]. cbn [IsTruncated]. rewrite bool_decide_eq_true.
    by rewrite matching_entries_None. }
  destruct (s3_delete_bucket_truncated w bucket b Hb Hnd Hlen)
    as (w' & b' & Hrun & Hlog & _ & Hb' & Hne & Hsub).
  exists w', b'. split_and!; [exact Hrun| |exact Hb'|exact Hne|exact Hsub].
  change (sstate service) with state. rewrite Hlog.
  unfold purge_log, purge_idents, listed.
  by rewrite (purge_log_response _ _ _ _ _ Hb Hresp).
Qed.

(** The theorem on the bucket of 1001 versions. *)
Lemma C9_purge_uses_one_listing_response_witness :
  ∃ response w' b',
    (do_list_object_versions (Client None) BUCKET_NAME None crowded).1
    = Ok response
    ∧ s3_delete_bucket service BUCKET_NAME true (boot crowded)
      = (Raise (client_error "BucketNotEmpty"), w')
    ∧ requests (issued w')
      = requests (issued (boot crowded))
        ++ ListObjectVersions BUCKET_NAME None
           :: purge_requests BUCKET_NAME response ++ [DeleteBucket BUCKET_NAME]
    ∧ buckets (remote w') !! BUCKET_NAME = Some b'
    ∧ b_entries b' ≠ []
    ∧ b_entries b' ⊆ numbered 1001.
Proof.
  pose proof crowded_bucket as Hb.
  assert (∃ response,
            (do_list_object_versions (Client None) BUCKET_NAME None crowded).1
            = Ok response
            ∧ IsTruncated response = true) as (response & Hresp & Htrunc).
  { unfold do_list_object_versions. rewrite Hb. cbn [fst b_entries].
    eexists. split; [reflexivity|]. cbn [IsTruncated].
    apply bool_decide_eq_true.
    rewrite matching_entries_None, length_numbered. unfold max_keys. lia. }
  destruct C9_purge_uses_one_listing_response as [_ Hleft].
  destruct (Hleft (boot crowded) BUCKET_NAME
                  (Bucket Enabled (numbered 1001) None None) response
                  Hb (numbered_idents_NoDup _) Hresp Htrunc)
    as (w' & b' & Hrun).
  exists response, w', b'. split; [exact Hresp|exact Hrun].
Defined.

(** ** C10: the region and the create-bucket request *)

(** C10: for every client implementation, bucket name and pair of regions
    for which a client is built, [create_s3_bucket] sends the one request
    [CreateBucket] with the bucket name and no location constraint, with
    the client built for the region; the requests sent for the two
    regions are the same.  The region goes nowhere else but into the line
    of success: the outcome, the state the call leaves and the line
    printed for an error are those of the call made with the region's
    client, and when the service answers the two clients alike, the two
    runs end alike and leave the same state, and what they print differs
    at most in the region named in the line of success. *)
Theorem C10_create_request_ignores_region (svc : Service)
    (w : world (sstate svc)) (bucket region1 region2 : string)
    (c1 c2 : client) :
  svc_client svc (Some region1) (remote w) = Ok c1 →
  svc_client svc (Some region2) (remote w) = Ok c2 →
  issued (create_s3_bucket svc bucket region1 w).2
  = issued w ++ [(c1, CreateBucket bucket None)]
  ∧ issued (create_s3_bucket svc bucket region2 w).2
    = issued w ++ [(c2, CreateBucket bucket None)]
  ∧ requests (issued (create_s3_bucket svc bucket region1 w).2)
    = requests (issued (create_s3_bucket svc bucket region2 w).2)
  ∧ (∀ region c, (region, c) ∈ [(region1, c1); (region2, c2)] →
       (create_s3_bucket svc bucket region w).1
       = match (svc_create_bucket svc c bucket None (remote w)).1 with
         | Raise (Interrupt cls msg) => Raise (Interrupt cls msg)
         | _ => Ok tt
         end
       ∧ remote (create_s3_bucket svc bucket region w).2
         = (svc_create_bucket svc c bucket None (remote w)).2
       ∧ stdout (create_s3_bucket svc bucket region w).2
         = stdout w ++
           match (svc_create_bucket svc c bucket None (remote w)).1 with
           | Ok _ =>
               ["S3 bucket '" +:+ bucket +:+
                "' created successfully in region '" +:+ region +:+ "'."]
           | Raise (Error _ msg) => ["An error occurred: " +:+ msg]
           | Raise (Interrupt _ _) => []
           end)
  ∧ (svc_create_bucket svc c1 bucket None (remote w)
     = svc_create_bucket svc c2 bucket None (remote w) →
     (create_s3_bucket svc bucket region1 w).1
     = (create_s3_bucket svc bucket region2 w).1
     ∧ remote (create_s3_bucket svc bucket region1 w).2
       = remote (create_s3_bucket svc bucket region2 w).2
     ∧ (stdout (create_s3_bucket svc bucket region1 w).2
        = stdout (create_s3_bucket svc bucket region2 w).2
        ∨ stdout (create_s3_bucket svc bucket region1 w).2
          = stdout w ++ ["S3 bucket '" +:+ bucket +:+
                         "' created successfully in region '" +:+ region1
                         +:+ "'."]
          ∧ stdout (create_s3_bucket svc bucket region2 w).2
            = stdout w ++ ["S3 bucket '" +:+ bucket +:+
                           "' created successfully in region '" +:+ region2
                           +:+ "'."])).
Proof.
  intros H1 H2.
  assert (∀ region c, svc_client svc (Some region) (remote w) = Ok c →
            issued (create_s3_bucket svc bucket region w).2
            = issued w ++ [(c, CreateBucket bucket None)]) as Hsent.
  { intros region c Hc. rewrite (create_s3_bucket_run _ _ _ _ c) by done.
    by destruct (svc_create_bucket _ _ _ _ _) as [[?|[]] ?]. }
  rewrite (Hsent _ _ H1), (Hsent _ _ H2). split_and!; [done|done| | |].
  - unfold requests. by rewrite !fmap_app.
  - intros region c Hin.
    assert (svc_client svc (Some region) (remote w) = Ok c) as Hc.
    { apply elem_of_cons in Hin as [[= -> ->]|Hin]; [done|].
      by apply list_elem_of_singleton in Hin as [= -> ->]. }
    rewrite (create_s3_bucket_run _ _ _ _ c Hc).
    by destruct (svc_create_bucket _ _ _ _ _) as [[?|[]] ?].
  - intros Hsame.
    rewrite (create_s3_bucket_run _ _ _ _ c1 H1),
      (create_s3_bucket_run _ _ _ _ c2 H2), Hsame.
    destruct (svc_create_bucket svc c2 bucket None (remote w)) as [[?|[]] ?];
      cbn [fst snd after remote stdout];
      (split; [done|split; [done|]]); first [by left|by right].
Qed.

(** The lab's bucket name with two regions, on the reference service. *)
Lemma C10_create_request_ignores_region_witness :
  issued (create_s3_bucket service BUCKET_NAME "us-east-1" (boot fresh)).2
  = [(Client (Some "us-east-1"), CreateBucket BUCKET_NAME None)]
  ∧ issued (create_s3_bucket service BUCKET_NAME "eu-west-1" (boot fresh)).2
    = [(Client (Some "eu-west-1"), CreateBucket BUCKET_NAME None)]
  ∧ stdout (create_s3_bucket service BUCKET_NAME "us-east-1" (boot fresh)).2
    = ["S3 bucket 'de-c2w1lab3-730073446073' created successfully in region 'us-east-1'."]
  ∧ stdout (create_s3_bucket service BUCKET_NAME "eu-west-1" (boot fresh)).2
    = ["S3 bucket 'de-c2w1lab3-730073446073' created successfully in region 'eu-west-1'."].
Proof.
  destruct (C10_create_request_ignores_region service (boot fresh) BUCKET_NAME
              "us-east-1" "eu-west-1"
              (Client (Some "us-east-1")) (Client (Some "eu-west-1"))
              eq_refl eq_refl) as (Hsent1 & Hsent2 & _ & Hrun & _).
  split; [exact Hsent1|]. split; [exact Hsent2|]. split.
  - apply (Hrun "us-east-1" (Client (Some "us-east-1"))). by left.
  - apply (Hrun "eu-west-1" (Client (Some "eu-west-1"))). right. by left.
Defined.

(** * Further properties of the notebook *)

(** ** Printing and addressing, by composition *)

(** [quiet] and [confined] are kept by every way the notebook puts
    computations together: sequencing, the handler, the loop. *)
Section Composition.
Context {S : Type}.
Implicit Types (w : world S) (P : request → Prop).

Lemma quiet_ret {A} (a : A) : quiet (S:=S) (ret a).
Proof. by intros w. Qed.

Lemma quiet_bind {A B} (m : M S A) (k : A → M S B) :
  quiet m → (∀ a, quiet (k a)) → quiet (bind m k).
Proof.
  intros Hm Hk w. unfold bind. specialize (Hm w).
  destruct (m w) as [[a|e] w1]; cbn in *; [|done].
  by rewrite Hk.
Qed.

Lemma quiet_for_in {A} (l : list A) (body : A → M S unit) :
  (∀ x, quiet (body x)) → quiet (for_in l body).
Proof.
  intros Hbody. induction l as [|x l IH]; cbn [for_in].
  - apply quiet_ret.
  - by apply quiet_bind.
Qed.

Lemma confined_ret {A} P (a : A) : confined (S:=S) P (ret a).
Proof. intros w. exists []. by rewrite app_nil_r. Qed.

Lemma confined_print P (line : string) : confined (S:=S) P (print line).
Proof. intros w. exists []. by rewrite app_nil_r. Qed.

Lemma confined_bind {A B} P (m : M S A) (k : A → M S B) :
  confined P m → (∀ a, confined P (k a)) → confined P (bind m k).
Proof.
  intros Hm Hk w. unfold bind. destruct (Hm w) as (l1 & H1 & HP1).
  destruct (m w) as [[a|e] w1]; cbn [snd] in *; [|by exists l1].
  destruct (Hk a w1) as (l2 & H2 & HP2). exists (l1 ++ l2).
  split; [by rewrite H2, H1, app_assoc|by apply Forall_app].
Qed.

Lemma confined_try {A} P (body : M S A) (handler : exn → M S A) :
  confined P body → (∀ e, confined P (handler e)) →
  confined P (try_except_Exception body handler).
Proof.
  intros Hb Hh w. unfold try_except_Exception.
  destruct (Hb w) as (l1 & H1 & HP1).
  destruct (body w) as [[a|[cls msg|cls msg]] w1]; cbn [snd] in *;
    [by exists l1| |by exists l1].
  destruct (Hh (Error cls msg) w1) as (l2 & H2 & HP2). exists (l1 ++ l2).
  split; [by rewrite H2, H1, app_assoc|by apply Forall_app].
Qed.

Lemma confined_for_in {A} P (l : list A) (body : A → M S unit) :
  (∀ x, confined P (body x)) → confined P (for_in l body).
Proof.
  intros Hbody. induction l as [|x l IH]; cbn [for_in].
  - apply confined_ret.
  - by apply confined_bind.
Qed.
End Composition.

(** The two things a function does with the client: building it sends
    nothing and prints nothing; a method call sends its one request and
    prints nothing. *)
Section Calls.
Context (svc : Service).
Implicit Types (P : request → Prop).

Lemma quiet_client region : quiet (boto3_client svc region).
Proof. by intros w. Qed.

Lemma quiet_invoke {A} c r (h : sstate svc → result A * sstate svc) :
  quiet (invoke svc c r h).
Proof. intros w. unfold invoke. by destruct (h (remote w)). Qed.

Lemma confined_client P region : confined P (boto3_client svc region).
Proof. intros w. exists []. by rewrite app_nil_r. Qed.

Lemma confined_invoke {A} P c r (h : sstate svc → result A * sstate svc) :
  P r → confined P (invoke svc c r h).
Proof.
  intros Hr w. exists [(c, r)]. unfold invoke.
  destruct (h (remote w)). split; [done|]. by constructor.
Qed.
End Calls.

Ltac quiet_step :=
  first [ apply quiet_ret | apply quiet_client | apply quiet_invoke
        | apply quiet_bind; [|intros ?] | apply quiet_for_in; intros ?
        | case_match ].

Ltac confined_step :=
  first [ apply confined_ret | apply confined_print | apply confined_client
        | apply confined_invoke; by split
        | apply confined_bind; [|intros ?]
        | apply confined_try; [|intros ?]
        | apply confined_for_in; intros ?
        | case_match ].

(** X1: [s3_public_access_setup], [s3_put_bucket_policy],
    [configure_bucket_versioning] and [s3_delete_bucket] (with and without
    the purge) never print: over any client, in any world and whatever the
    outcome of their calls, the output is as it was. *)
Theorem functions_that_never_print (svc : Service) (json_dumps : json → string)
    (w : world (sstate svc)) (bucket_name : string) :
  (∀ cfg, stdout (s3_public_access_setup svc bucket_name cfg w).2 = stdout w)
  ∧ (∀ policy,
       stdout (s3_put_bucket_policy svc json_dumps bucket_name policy w).2
       = stdout w)
  ∧ (∀ cfg,
       stdout (configure_bucket_versioning svc bucket_name cfg w).2 = stdout w)
  ∧ (∀ delete_objects,
       stdout (s3_delete_bucket svc bucket_name delete_objects w).2 = stdout w).
Proof.
  split_and!; intros ?.
  - apply (quiet_bind (boto3_client svc None)); [apply quiet_client|intros c].
    unfold put_public_access_block. repeat quiet_step.
  - apply (quiet_bind (boto3_client svc None)); [apply quiet_client|intros c].
    unfold put_bucket_policy. repeat quiet_step.
  - apply (quiet_bind (boto3_client svc None)); [apply quiet_client|intros c].
    unfold put_bucket_versioning. repeat quiet_step.
  - apply (quiet_bind (boto3_client svc None)); [apply quiet_client|intros c].
    unfold client_list_object_versions, delete_object, delete_bucket.
    repeat quiet_step.
Qed.

(** X2: every request a function of the notebook sends is addressed to
    the bucket it was given, and none is a deletion that names no version:
    over any client, in any world and whatever the outcome, the functions
    touch no other bucket and leave no delete marker of their own. *)
Theorem requests_stay_in_the_bucket (svc : Service) (json_dumps : json → string)
    (bucket_name : string) :
  (∀ region,
     confined (within bucket_name) (create_s3_bucket svc bucket_name region))
  ∧ (∀ path key,
       confined (within bucket_name)
                (upload_file_to_s3 svc path bucket_name key))
  ∧ (∀ key path,
       confined (within bucket_name)
                (download_object_from_s3 svc bucket_name key path))
  ∧ (∀ cfg,
       confined (within bucket_name) (s3_public_access_setup svc bucket_name cfg))
  ∧ (∀ policy,
       confined (within bucket_name)
                (s3_put_bucket_policy svc json_dumps bucket_name policy))
  ∧ (∀ cfg,
       confined (within bucket_name)
                (configure_bucket_versioning svc bucket_name cfg))
  ∧ (∀ prefix,
       confined (within bucket_name)
                (list_objects_in_folder svc bucket_name prefix))
  ∧ (∀ prefix,
       confined (within bucket_name)
                (list_object_versions svc bucket_name prefix))
  ∧ (∀ delete_objects,
       confined (within bucket_name)
                (s3_delete_bucket svc bucket_name delete_objects)).
Proof.
  split_and!; intros;
    unfold create_s3_bucket, upload_file_to_s3, download_object_from_s3,
      s3_public_access_setup, s3_put_bucket_policy,
      configure_bucket_versioning, list_objects_in_folder,
      list_object_versions, s3_delete_bucket, print_version,
      create_bucket, upload_file, download_file, put_public_access_block,
      put_bucket_policy, put_bucket_versioning, list_objects_v2,
      client_list_object_versions, delete_object, delete_bucket;
    repeat confined_step.
Qed.

(** ** Failures the handlers do not see *)

(** X3: the client is built before any [try]: when [boto3.client] raises
    in a function, whatever it raises (an [Exception] included) leaves
    that function, also in the three that have a handler; no request is
    sent and nothing is printed. *)
Theorem client_failure_leaves_every_function (svc : Service)
    (json_dumps : json → string) (w : world (sstate svc)) (e : exn) :
  (∀ bucket region,
     svc_client svc (Some region) (remote w) = Raise e →
     create_s3_bucket svc bucket region w = (Raise e, w))
  ∧ (svc_client svc None (remote w) = Raise e →
     (∀ path bucket key,
        upload_file_to_s3 svc path bucket key w = (Raise e, w))
     ∧ (∀ bucket key path,
          download_object_from_s3 svc bucket key path w = (Raise e, w))
     ∧ (∀ bucket cfg, s3_public_access_setup svc bucket cfg w = (Raise e, w))
     ∧ (∀ bucket policy,
          s3_put_bucket_policy svc json_dumps bucket policy w = (Raise e, w))
     ∧ (∀ bucket cfg,
          configure_bucket_versioning svc bucket cfg w = (Raise e, w))
     ∧ (∀ bucket prefix,
          list_objects_in_folder svc bucket prefix w = (Raise e, w))
     ∧ (∀ bucket prefix,
          list_object_versions svc bucket prefix w = (Raise e, w))
     ∧ (∀ bucket delete_objects,
          s3_delete_bucket svc bucket delete_objects w = (Raise e, w))).
Proof.
  split.
  - intros bucket region Hc. unfold create_s3_bucket.
    unfold bind at 1, boto3_client. by rewrite Hc.
  - intros Hc. split_and!; intros;
      unfold upload_file_to_s3, download_object_from_s3,
        s3_public_access_setup, s3_put_bucket_policy,
        configure_bucket_versioning, list_objects_in_folder,
        list_object_versions, s3_delete_bucket;
      unfold bind at 1, boto3_client; by rewrite Hc.
Qed.

(** The theorem on the reference service behind a client that checks its
    region: a region name with blanks is refused when the client is
    built, and the [InvalidRegionError], an [Exception], leaves
    [create_s3_bucket] although the function has a handler. *)
Lemma client_failure_leaves_every_function_witness :
  create_s3_bucket (picky "us east 1") BUCKET_NAME "us east 1" (boot fresh)
  = (Raise (Error "InvalidRegionError"
                  "Provided region_name 'us east 1' doesn't match a supported format."),
     boot fresh).
Proof.
  destruct (client_failure_leaves_every_function
              (picky "us east 1") (λ _, "") (boot fresh)
              (Error "InvalidRegionError"
                     "Provided region_name 'us east 1' doesn't match a supported format."))
    as [Hcreate _].
  apply Hcreate. reflexivity.
Defined.

(** X4: [except Exception] does not catch what is only a
    [BaseException]: when the remote call of [create_s3_bucket], of
    [upload_file_to_s3] or of [download_object_from_s3] raises one (a
    KeyboardInterrupt, say), it leaves the function; neither the success
    line nor an error line is printed. *)
Theorem interrupt_passes_the_handlers (svc : Service)
    (w : world (sstate svc)) (c : client) (cls msg : string) :
  (∀ bucket region s',
     svc_client svc (Some region) (remote w) = Ok c →
     svc_create_bucket svc c bucket None (remote w)
     = (Raise (Interrupt cls msg), s') →
     create_s3_bucket svc bucket region w
     = (Raise (Interrupt cls msg),
        after w s' [] c (CreateBucket bucket None)))
  ∧ (∀ path bucket key s',
       svc_client svc None (remote w) = Ok c →
       svc_upload_file svc c path bucket key (remote w)
       = (Raise (Interrupt cls msg), s') →
       upload_file_to_s3 svc path bucket key w
       = (Raise (Interrupt cls msg),
          after w s' [] c (UploadFile path bucket key)))
  ∧ (∀ bucket key path s',
       svc_client svc None (remote w) = Ok c →
       svc_download_file svc c bucket key path (remote w)
       = (Raise (Interrupt cls msg), s') →
       download_object_from_s3 svc bucket key path w
       = (Raise (Interrupt cls msg),
          after w s' [] c (DownloadFile bucket key path))).
Proof.
  split_and!; intros * Hc H.
  - by rewrite (create_s3_bucket_run _ _ _ _ _ Hc), H.
  - by rewrite (upload_file_to_s3_run _ _ _ _ _ _ Hc), H.
  - by rewrite (download_object_from_s3_run _ _ _ _ _ _ Hc), H.
Qed.

(** The theorem on a client whose calls are interrupted. *)
Lemma interrupt_passes_the_handlers_witness :
  download_object_from_s3
    (refusing (Ok (Client None)) (Interrupt "KeyboardInterrupt" ""))
    BUCKET_NAME object_key_json local_file_path_13 (World () [] [])
  = (Raise (Interrupt "KeyboardInterrupt" ""),
     World () []
           [(Client None,
             DownloadFile BUCKET_NAME object_key_json local_file_path_13)]).
Proof.
  set (e := Interrupt "KeyboardInterrupt" "").
  destruct (interrupt_passes_the_handlers
              (refusing (Ok (Client None)) e) (World () [] [])
              (Client None) "KeyboardInterrupt" "")
    as (_ & _ & Hdownload).
  apply (Hdownload BUCKET_NAME object_key_json local_file_path_13 ());
    reflexivity.
Defined.

(** ** One call, one request; what a listing prints *)

(** X5: one call of a function, one request: once the client of the call
    is built, each function, [s3_delete_bucket] with
    [delete_objects=False] included, sends exactly one request, with that
    client and with the arguments it was given in their places (the
    policy as [json.dumps] renders it, the prefix as [Prefix], the region
    nowhere), whatever the service answers: there is no retry and no
    second call. *)
Theorem one_request_per_call (svc : Service) (json_dumps : json → string)
    (w : world (sstate svc)) (c : client) :
  (∀ bucket region,
     svc_client svc (Some region) (remote w) = Ok c →
     issued (create_s3_bucket svc bucket region w).2
     = issued w ++ [(c, CreateBucket bucket None)])
  ∧ (svc_client svc None (remote w) = Ok c →
     (∀ path bucket key,
        issued (upload_file_to_s3 svc path bucket key w).2
        = issued w ++ [(c, UploadFile path bucket key)])
     ∧ (∀ bucket key path,
          issued (download_object_from_s3 svc bucket key path w).2
          = issued w ++ [(c, DownloadFile bucket key path)])
     ∧ (∀ bucket cfg,
          issued (s3_public_access_setup svc bucket cfg w).2
          = issued w ++ [(c, PutPublicAccessBlock bucket cfg)])
     ∧ (∀ bucket policy,
          issued (s3_put_bucket_policy svc json_dumps bucket policy w).2
          = issued w ++ [(c, PutBucketPolicy bucket (json_dumps policy))])
     ∧ (∀ bucket cfg,
          issued (configure_bucket_versioning svc bucket cfg w).2
          = issued w ++ [(c, PutBucketVersioning bucket cfg)])
     ∧ (∀ bucket prefix,
          issued (list_objects_in_folder svc bucket prefix w).2
          = issued w ++ [(c, ListObjectsV2 bucket (Some prefix))])
     ∧ (∀ bucket prefix,
          issued (list_object_versions svc bucket prefix w).2
          = issued w ++ [(c, ListObjectVersions bucket (Some prefix))])
     ∧ (∀ bucket,
          issued (s3_delete_bucket svc bucket false w).2
          = issued w ++ [(c, DeleteBucket bucket)])).
Proof.
  split.
  - intros bucket region Hc. rewrite (create_s3_bucket_run _ _ _ _ _ Hc).
    by destruct (svc_create_bucket _ _ _ _ _) as [[?|[]] ?].
  - intros Hc. split_and!; intros.
    + rewrite (upload_file_to_s3_run _ _ _ _ _ _ Hc).
      by destruct (svc_upload_file _ _ _ _ _ _) as [[?|[]] ?].
    + rewrite (download_object_from_s3_run _ _ _ _ _ _ Hc).
      by destruct (svc_download_file _ _ _ _ _ _) as [[?|[]] ?].
    + rewrite (s3_public_access_setup_run _ _ _ _ _ Hc).
      by destruct (svc_put_public_access_block _ _ _ _ _) as [[?|?] ?].
    + rewrite (s3_put_bucket_policy_run _ _ _ _ _ _ Hc).
      by destruct (svc_put_bucket_policy _ _ _ _ _) as [[?|?] ?].
    + rewrite (configure_bucket_versioning_run _ _ _ _ _ Hc).
      by destruct (svc_put_bucket_versioning _ _ _ _ _) as [[?|?] ?].
    + rewrite (list_objects_in_folder_run _ _ _ _ _ Hc).
      by destruct (svc_list_objects_v2 _ _ _ _ _) as [[?|?] ?].
    + rewrite (list_object_versions_run _ _ _ _ _ Hc).
      by destruct (svc_list_object_versions _ _ _ _ _) as [[?|?] ?].
    + rewrite (s3_delete_bucket_direct _ _ _ _ Hc).
      by destruct (svc_delete_bucket _ _ _ _) as [[?|?] ?].
Qed.

(** The theorem on the reference service, also behind the client that
    refuses another region: the policy cell's call on a fresh account,
    where it fails, and the listing of the lab's bucket. *)
Lemma one_request_per_call_witness :
  issued (s3_put_bucket_policy (picky "us east 1") (λ _, "{}") BUCKET_NAME
                               policy (boot fresh)).2
  = [(Client None, PutBucketPolicy BUCKET_NAME "{}")]
  ∧ issued (list_objects_in_folder service BUCKET_NAME "images" (boot lab)).2
    = [(Client None, ListObjectsV2 BUCKET_NAME (Some "images"))].
Proof.
  split.
  - destruct (one_request_per_call (picky "us east 1") (λ _, "{}")
                (boot fresh) (Client None)) as [_ Hnone].
    destruct (Hnone eq_refl) as (_ & _ & _ & Hpolicy & _).
    apply Hpolicy.
  - destruct (one_request_per_call service (λ _, "{}") (boot lab)
                (Client None)) as [_ Hnone].
    destruct (Hnone eq_refl) as (_ & _ & _ & _ & _ & Hlist & _).
    apply Hlist.
Defined.

(** X6: what [list_objects_in_folder] prints is read off the one response:
    with a [Contents] key, the header and then the key of every element,
    in the order of the response, none left out and none added (an empty
    [Contents] gives the header alone); without it, the one line that no
    object was found. Nothing else of the response is looked at. *)
Theorem list_objects_in_folder_prints_the_response (svc : Service)
    (w : world (sstate svc)) (c : client) (bucket prefix : string)
    (response : ListObjectsV2Output) (s' : sstate svc) :
  svc_client svc None (remote w) = Ok c →
  svc_list_objects_v2 svc c bucket (Some prefix) (remote w)
  = (Ok response, s') →
  ∃ w', list_objects_in_folder svc bucket prefix w = (Ok tt, w')
    ∧ remote w' = s'
    ∧ stdout w'
      = stdout w ++
        match Contents response with
        | Some contents =>
            ("Objects with a key that starts with '" +:+ prefix +:+ "':")
            :: (obj_Key <$> contents)
        | None => ["No objects found in folder '" +:+ prefix +:+ "'."]
        end
    ∧ length (stdout w')
      = length (stdout w) + S (length (default [] (Contents response))).
Proof.
  intros Hc Hcall. rewrite (list_objects_in_folder_run _ _ _ _ c Hc), Hcall.
  eexists. split; [done|]. cbn [after remote stdout]. split; [done|].
  split; [done|]. rewrite length_app.
  destruct (Contents response); cbn [length default]; by rewrite ?length_fmap.
Qed.

(** The theorem on the lab's bucket with a version under a delete marker:
    the service answers without [Contents]. *)
Lemma list_objects_in_folder_prints_the_response_witness :
  ∃ w', list_objects_in_folder service BUCKET_NAME "images" (boot marked)
        = (Ok tt, w')
    ∧ remote w' = marked
    ∧ stdout w' = [] ++ ["No objects found in folder 'images'."]
    ∧ length (stdout w') = 0 + 1.
Proof.
  apply (list_objects_in_folder_prints_the_response service (boot marked)
           (Client None) BUCKET_NAME "images"
           {| Contents := None; lo_IsTruncated := false |} marked).
  - reflexivity.
  - vm_compute. reflexivity.
Defined.

(** ** The purge, call by call *)

(** X7: the order of the purge and how it ends, over any client: after
    the one listing, [s3_delete_bucket] with [delete_objects=True] calls
    [delete_object] on the versions of the response, in order, and then
    on its delete markers, in order, each call on the state the call
    before left.  The first of these calls that raises ends the function
    with the exception of that call, and no call is made after it.  When
    none raises, all the deletions were made, [delete_bucket] is called
    next, and what it returns or raises is what the function returns or
    raises.  Nothing is printed. *)
Theorem purge_then_bucket_deletion (svc : Service) (w : world (sstate svc))
    (c : client) (bucket : string) (response : ListObjectVersionsOutput)
    (s1 : sstate svc) :
  svc_client svc None (remote w) = Ok c →
  svc_list_object_versions svc c bucket None (remote w) = (Ok response, s1) →
  ∃ failed s2 n,
    delete_each svc c bucket (purge_targets response) s1 = (failed, s2, n)
    ∧ n ≤ length (purge_requests bucket response)
    ∧ (failed = None → n = length (purge_requests bucket response))
    ∧ s3_delete_bucket svc bucket true w
      = match failed with
        | Some e =>
            (Raise e,
             World s2 (stdout w)
                   (issued w ++ (c, ListObjectVersions bucket None)
                    :: ((c,.) <$> take n (purge_requests bucket response))))
        | None =>
            let '(r, s3) := svc_delete_bucket svc c bucket s2 in
            (r,
             World s3 (stdout w)
                   (issued w ++ (c, ListObjectVersions bucket None)
                    :: ((c,.) <$> purge_requests bucket response)
                    ++ [(c, DeleteBucket bucket)]))
        end.
Proof.
  intros Hc Hl.
  pose proof (s3_delete_bucket_purge_outcome svc bucket w c response s1 Hc Hl)
    as Hrun.
  destruct (delete_each svc c bucket (purge_targets response) s1)
    as [[failed s2] n] eqn:Hd.
  destruct (delete_each_calls svc _ _ _ _ _ _ _ Hd) as [Hle Hall].
  exists failed, s2, n. rewrite purge_requests_targets, length_fmap.
  split_and!; [done|done|done|].
  by rewrite <- purge_requests_targets.
Qed.

(** The theorem on the lab's bucket with a version under a delete
    marker, the key under a retention lock: the deletion of the version
    is refused, the function ends with that refusal, and neither the
    delete marker nor the bucket is asked to go. *)
Lemma purge_then_bucket_deletion_witness :
  s3_delete_bucket (retaining "images/AWS-Logo.png") BUCKET_NAME true
                   (boot marked)
  = (Raise (client_error "AccessDenied"),
     World marked []
           [ (Client None, ListObjectVersions BUCKET_NAME None);
             (Client None,
              DeleteObject BUCKET_NAME "images/AWS-Logo.png" (Some "0")) ]).
Proof.
  destruct (purge_then_bucket_deletion
              (retaining "images/AWS-Logo.png") (boot marked) (Client None)
              BUCKET_NAME
              {| Versions :=
                   Some [ {| Key := "images/AWS-Logo.png"; VersionId := "0";
                             IsLatest := false; LastModified := "0" |} ];
                 DeleteMarkers :=
                   Some [ {| dm_Key := "images/AWS-Logo.png";
                             dm_VersionId := "1"; dm_IsLatest := true;
                             dm_LastModified := "1" |} ];
                 IsTruncated := false |}
              marked)
    as (failed & s2 & n & Hd & _ & _ & Hrun).
  - reflexivity.
  - vm_compute. reflexivity.
  - injection Hd as <- <- <-. exact Hrun.
Defined.

(** X8: when the listing response has no versions and no delete markers
    (the keys [Versions] and [DeleteMarkers] absent, or their lists
    empty), [s3_delete_bucket] with [delete_objects=True] sends, after
    the listing, the one request [delete_bucket], on the state the
    listing left; what that call returns or raises is what the function
    returns or raises, and nothing is printed. *)
Theorem purge_of_an_empty_listing (svc : Service) (w : world (sstate svc))
    (c : client) (bucket : string) (response : ListObjectVersionsOutput)
    (s1 : sstate svc) :
  svc_client svc None (remote w) = Ok c →
  svc_list_object_versions svc c bucket None (remote w) = (Ok response, s1) →
  default [] (Versions response) = [] →
  default [] (DeleteMarkers response) = [] →
  s3_delete_bucket svc bucket true w
  = (let '(r, s') := svc_delete_bucket svc c bucket s1 in
     (r,
      World s' (stdout w)
            (issued w ++ [ (c, ListObjectVersions bucket None);
                           (c, DeleteBucket bucket) ]))).
Proof.
  intros Hc Hl Hv Hm.
  rewrite (s3_delete_bucket_purge_outcome svc bucket w c response s1 Hc Hl).
  unfold purge_targets, purge_requests. rewrite Hv, Hm. cbn.
  by destruct (svc_delete_bucket _ _ _ _) as [r s'].
Qed.

(** The theorem on the lab's bucket while it is empty: the bucket is
    deleted. *)
Lemma purge_of_an_empty_listing_witness :
  s3_delete_bucket service BUCKET_NAME true (boot lab)
  = (Ok (ok 204),
     World (State lab_files ∅ 0 ∅) []
           [ (Client None, ListObjectVersions BUCKET_NAME None);
             (Client None, DeleteBucket BUCKET_NAME) ]).
Proof.
  rewrite (purge_of_an_empty_listing service (boot lab) (Client None)
             BUCKET_NAME
             {| Versions := None; DeleteMarkers := None;
                IsTruncated := false |}
             lab).
  - vm_compute. reflexivity.
  - reflexivity.
  - vm_compute. reflexivity.
  - reflexivity.
  - reflexivity.
Defined.

(** ** The lines of success *)







(** ** The notebook, cell after cell *)

(** [sends] through a print, a single call and a sequence. *)
Section Sequences.
Context {S : Type}.

Lemma bind_Ok_inv {A B} (m : M S A) (k : A → M S B) (w w' : world S) (b : B) :
  bind m k w = (Ok b, w') → ∃ a w1, m w = (Ok a, w1) ∧ k a w1 = (Ok b, w').
Proof.
  unfold bind. destruct (m w) as [[a|e] w1]; [|done]. intros Hk. by exists a, w1.
Qed.

Lemma sends_print (line : string) : sends (S:=S) (eq []) (print line).
Proof.
  intros w a w' [= _ <-]. exists []. by rewrite app_nil_r.
Qed.

Lemma sends_one {A} (m : M S A) (r : request) :
  (∀ w a w', m w = (Ok a, w') → ∃ c, issued w' = issued w ++ [(c, r)]) →
  sends (eq [r]) m.
Proof.
  intros Hm w a w' Hrun. destruct (Hm w a w' Hrun) as [c Hlog].
  exists [r]. split; [done|]. unfold requests. by rewrite Hlog, fmap_app.
Qed.

Lemma sends_bind {A B} (Q1 Q2 : list request → Prop)
    (m : M S A) (k : A → M S B) :
  sends Q1 m → (∀ a, sends Q2 (k a)) →
  sends (λ l, ∃ l1 l2, Q1 l1 ∧ Q2 l2 ∧ l = l1 ++ l2) (bind m k).
Proof.
  intros Hm Hk w b w' (a & w1 & Hm1 & Hrun)%bind_Ok_inv.
  destruct (Hm w a w1 Hm1) as (l1 & HQ1 & Hlog1).
  destruct (Hk a w1 b w' Hrun) as (l2 & HQ2 & Hlog2).
  exists (l1 ++ l2). split; [by exists l1, l2|].
  by rewrite Hlog2, Hlog1, <- app_assoc.
Qed.
End Sequences.

(** What a function has sent when it returns normally: its client was
    built, or the function would not have returned. *)
Section NotebookRun.
Context (svc : Service).
Variable json_dumps : json → string.
Variable json_loads : string → result json.
Variable str_json : json → string.

Lemma sends_create_s3_bucket bucket region :
  sends (eq [CreateBucket bucket None]) (create_s3_bucket svc bucket region).
Proof.
  apply sends_one. intros w a w'.
  destruct (svc_client svc (Some region) (remote w)) as [c|e] eqn:Hc.
  - rewrite (create_s3_bucket_run _ _ _ _ _ Hc). exists c.
    destruct (svc_create_bucket _ _ _ _ _) as [[?|[]] ?]; by simplify_eq/=.
  - unfold create_s3_bucket. unfold bind at 1, boto3_client. by rewrite Hc.
Qed.

Lemma sends_upload_file_to_s3 path bucket key :
  sends (eq [UploadFile path bucket key]) (upload_file_to_s3 svc path bucket key).
Proof.
  apply sends_one. intros w a w'.
  destruct (svc_client svc None (remote w)) as [c|e] eqn:Hc.
  - rewrite (upload_file_to_s3_run _ _ _ _ _ _ Hc). exists c.
    destruct (svc_upload_file _ _ _ _ _ _) as [[?|[]] ?]; by simplify_eq/=.
  - unfold upload_file_to_s3. unfold bind at 1, boto3_client. by rewrite Hc.
Qed.

Lemma sends_download_object_from_s3 bucket key path :
  sends (eq [DownloadFile bucket key path])
        (download_object_from_s3 svc bucket key path).
Proof.
  apply sends_one. intros w a w'.
  destruct (svc_client svc None (remote w)) as [c|e] eqn:Hc.
  - rewrite (download_object_from_s3_run _ _ _ _ _ _ Hc). exists c.
    destruct (svc_download_file _ _ _ _ _ _) as [[?|[]] ?]; by simplify_eq/=.
  - unfold download_object_from_s3. unfold bind at 1, boto3_client.
    by rewrite Hc.
Qed.

Lemma sends_s3_public_access_setup bucket cfg :
  sends (eq [PutPublicAccessBlock bucket cfg])
        (s3_public_access_setup svc bucket cfg).
Proof.
  apply sends_one. intros w a w'.
  destruct (svc_client svc None (remote w)) as [c|e] eqn:Hc.
  - rewrite (s3_public_access_setup_run _ _ _ _ _ Hc). exists c.
    destruct (svc_put_public_access_block _ _ _ _ _) as [[?|?] ?];
      by simplify_eq/=.
  - unfold s3_public_access_setup. unfold bind at 1, boto3_client.
    by rewrite Hc.
Qed.

Lemma sends_s3_put_bucket_policy bucket policy :
  sends (eq [PutBucketPolicy bucket (json_dumps policy)])
        (s3_put_bucket_policy svc json_dumps bucket policy).
Proof.
  apply sends_one. intros w a w'.
  destruct (svc_client svc None (remote w)) as [c|e] eqn:Hc.
  - rewrite (s3_put_bucket_policy_run _ _ _ _ _ _ Hc). exists c.
    destruct (svc_put_bucket_policy _ _ _ _ _) as [[?|?] ?]; by simplify_eq/=.
  - unfold s3_put_bucket_policy. unfold bind at 1, boto3_client.
    by rewrite Hc.
Qed.

Lemma sends_configure_bucket_versioning bucket cfg :
  sends (eq [PutBucketVersioning bucket cfg])
        (configure_bucket_versioning svc bucket cfg).
Proof.
  apply sends_one. intros w a w'.
  destruct (svc_client svc None (remote w)) as [c|e] eqn:Hc.
  - rewrite (configure_bucket_versioning_run _ _ _ _ _ Hc). exists c.
    destruct (svc_put_bucket_versioning _ _ _ _ _) as [[?|?] ?];
      by simplify_eq/=.
  - unfold configure_bucket_versioning. unfold bind at 1, boto3_client.
    by rewrite Hc.
Qed.

Lemma sends_list_objects_in_folder bucket prefix :
  sends (eq [ListObjectsV2 bucket (Some prefix)])
        (list_objects_in_folder svc bucket prefix).
Proof.
  apply sends_one. intros w a w'.
  destruct (svc_client svc None (remote w)) as [c|e] eqn:Hc.
  - rewrite (list_objects_in_folder_run _ _ _ _ _ Hc). exists c.
    destruct (svc_list_objects_v2 _ _ _ _ _) as [[?|?] ?]; by simplify_eq/=.
  - unfold list_objects_in_folder. unfold bind at 1, boto3_client.
    by rewrite Hc.
Qed.

Lemma sends_list_object_versions bucket prefix :
  sends (eq [ListObjectVersions bucket (Some prefix)])
        (list_object_versions svc bucket prefix).
Proof.
  apply sends_one. intros w a w'.
  destruct (svc_client svc None (remote w)) as [c|e] eqn:Hc.
  - rewrite (list_object_versions_run _ _ _ _ _ Hc). exists c.
    destruct (svc_list_object_versions _ _ _ _ _) as [[?|?] ?];
      by simplify_eq/=.
  - unfold list_object_versions. unfold bind at 1, boto3_client.
    by rewrite Hc.
Qed.

(** Cell 14 sends nothing. *)
Lemma sends_cell_14 : sends (eq []) (cell_14 svc json_loads str_json).
Proof.
  intros w a w'. unfold cell_14, bind, open_read, print.
  destruct (svc_open_read _ _ _) as [[content|e] s']; [|done].
  destruct (json_loads content) as [j|e]; [|done].
  intros [= _ <-]. exists []. cbn. by rewrite app_nil_r.
Qed.

(** The purge, when it returns: its client was built, the listing gave a
    response, and the deletions of that response and the bucket deletion
    were sent. *)
Lemma s3_delete_bucket_returned bucket w r w' :
  s3_delete_bucket svc bucket true w = (Ok r, w') →
  ∃ c response s1,
    svc_client svc None (remote w) = Ok c
    ∧ svc_list_object_versions svc c bucket None (remote w)
      = (Ok response, s1)
    ∧ requests (issued w')
      = requests (issued w) ++ ListObjectVersions bucket None
        :: purge_requests bucket response ++ [DeleteBucket bucket].
Proof.
  destruct (svc_client svc None (remote w)) as [c|e] eqn:Hc; cycle 1.
  { unfold s3_delete_bucket. unfold bind at 1, boto3_client. by rewrite Hc. }
  destruct (svc_list_object_versions svc c bucket None (remote w))
    as [[response|e] s1] eqn:Hl; cycle 1.
  { unfold s3_delete_bucket, boto3_client, client_list_object_versions,
      invoke, bind. by rewrite Hc, Hl. }
  rewrite (s3_delete_bucket_purge_outcome svc bucket w c response s1 Hc Hl).
  destruct (delete_each _ _ _ _ _) as [[[e|] s2] n]; [done|].
  destruct (svc_delete_bucket _ _ _ _) as [r' s3]. intros [= -> <-].
  exists c, response, s1. split; [done|]. split; [done|].
  cbn [issued]. unfold requests.
  rewrite fmap_app, fmap_cons, fmap_app, <- list_fmap_compose.
  by rewrite list_fmap_id.
Qed.
End NotebookRun.

Ltac sends_steps svc json_dumps json_loads str_json :=
  first [ apply sends_print
        | apply (sends_create_s3_bucket svc)
        | apply (sends_upload_file_to_s3 svc)
        | apply (sends_download_object_from_s3 svc)
        | apply (sends_s3_public_access_setup svc)
        | apply (sends_s3_put_bucket_policy svc json_dumps)
        | apply (sends_configure_bucket_versioning svc)
        | apply (sends_list_objects_in_folder svc)
        | apply (sends_list_object_versions svc)
        | apply (sends_cell_14 svc json_loads str_json)
        | eapply sends_bind;
          [sends_steps svc json_dumps json_loads str_json
          |intros ?; sends_steps svc json_dumps json_loads str_json] ].

(** X11: the notebook's Python cells from top to bottom, over any client:
    if the run reaches the end of the last cell, then the cells before
    the last returned normally and sent, in this order and with nothing
    in between: the creation of the bucket, the uploads of the CSV and
    the JSON file, the download of the JSON file (the cell that reads it
    back sends nothing), the public-access block, the policy, the upload
    of the first image, the versioning configuration, the upload of the
    second image under the key of the first, the listing of [images] and
    the listing of the versions of [images/]; the last cell built its
    client, its listing of versions returned a response, and it sent
    that listing, the deletions of that response and the deletion of the
    bucket.  Every request names the one bucket of the notebook. *)
Theorem notebook_call_sequence (svc : Service) (json_dumps : json → string)
    (str_response : ResponseMetadata → string)
    (json_loads : string → result json) (str_json : json → string)
    (w w' : world (sstate svc)) :
  notebook svc json_dumps str_response json_loads str_json w = (Ok tt, w') →
  ∃ w0 c response s1,
    cells_before_delete svc json_dumps str_response json_loads str_json w
    = (Ok tt, w0)
    ∧ requests (issued w0)
      = requests (issued w) ++ notebook_requests json_dumps
    ∧ svc_client svc None (remote w0) = Ok c
    ∧ svc_list_object_versions svc c BUCKET_NAME None (remote w0)
      = (Ok response, s1)
    ∧ requests (issued w')
      = requests (issued w0)
        ++ ListObjectVersions BUCKET_NAME None
           :: purge_requests BUCKET_NAME response ++ [DeleteBucket BUCKET_NAME]
    ∧ Forall (λ r, bucket_of r = BUCKET_NAME)
             (notebook_requests json_dumps
              ++ ListObjectVersions BUCKET_NAME None
                 :: purge_requests BUCKET_NAME response
                 ++ [DeleteBucket BUCKET_NAME]).
Proof.
  intros Hrun. unfold notebook in Hrun.
  apply bind_Ok_inv in Hrun as ([] & w0 & Hbefore & Hlast).
  assert (∃ Q, sends Q (cells_before_delete svc json_dumps str_response
                                            json_loads str_json)
               ∧ ∀ l, Q l → l = notebook_requests json_dumps)
    as (Q & Hsends & HQ).
  { eexists. split.
    - unfold cells_before_delete, cell_4, cell_8, cell_10, cell_13, cell_16,
        cell_19, cell_20, cell_versioning, cell_image_v2, cell_list_objects,
        cell_list_versions.
      sends_steps svc json_dumps json_loads str_json.
    - cbv beta. intros l HQ.
      repeat match goal with
             | H : ∃ _, _ |- _ => destruct H as [? H]
             | H : _ ∧ _ |- _ => destruct H as [? ?]
             end.
      subst. unfold notebook_requests. cbn [app]. by rewrite ?app_nil_r. }
  destruct (Hsends w tt w0 Hbefore) as (l & ->%HQ & Hlog0).
  unfold cell_delete in Hlast.
  apply bind_Ok_inv in Hlast as (r & w1 & Hdelete & Hprint).
  injection Hprint as <-.
  destruct (s3_delete_bucket_returned svc BUCKET_NAME w0 r w1 Hdelete)
    as (c & response & s1 & Hc & Hl & Hlog1).
  exists w0, c, response, s1. split_and!; [done|done|done|done|done|].
  unfold notebook_requests, purge_requests.
  repeat (apply Forall_cons; split; [done|]).
  rewrite <- app_assoc. repeat (apply Forall_app; split);
    [ apply Forall_fmap, Forall_true; done
    | apply Forall_fmap, Forall_true; done
    | by apply Forall_singleton ].
Qed.

(** The theorem on the reference service: the lab's account before the
    notebook runs has the four data files and no bucket, the JSON file
    parses, the run reaches the end, and the purge deletes the four
    versions that its listing names. *)
Lemma notebook_call_sequence_witness :
  ∃ w' w0 response s1,
    notebook service (λ _, "{}") (λ r, pretty (HTTPStatusCode r))
             (λ _, Ok (JDict [])) (λ _, "{}") (boot before_lab)
    = (Ok tt, w')
    ∧ svc_list_object_versions service (Client None) BUCKET_NAME None
                               (remote w0)
      = (Ok response, s1)
    ∧ requests (issued w0)
      = requests (issued (boot before_lab)) ++ notebook_requests (λ _, "{}")
    ∧ requests (issued w')
      = requests (issued w0)
        ++ ListObjectVersions BUCKET_NAME None
           :: purge_requests BUCKET_NAME response ++ [DeleteBucket BUCKET_NAME].
Proof.
  assert ((notebook service (λ _, "{}") (λ r, pretty (HTTPStatusCode r))
                    (λ _, Ok (JDict [])) (λ _, "{}") (boot before_lab)).1
          = Ok tt) as Hok by (vm_compute; reflexivity).
  destruct (notebook service (λ _, "{}") (λ r, pretty (HTTPStatusCode r))
                     (λ _, Ok (JDict [])) (λ _, "{}") (boot before_lab))
    as [[[]|e] w'] eqn:Hrun; [|discriminate Hok].
  destruct (notebook_call_sequence service _ _ _ _ (boot before_lab) w' Hrun)
    as (w0 & c & response & s1 & _ & Hlog0 & Hc & Hl & Hlog & _).
  injection Hc as <-.
  exists w', w0, response, s1.
  split; [reflexivity|]. split; [exact Hl|]. split; [exact Hlog0|exact Hlog].
Defined.

(** ** On the reference service *)

(** X12: on the reference model of the service, for a bucket that exists
    and a prefix whose current keys fit one listing response,
    [list_objects_in_folder] changes nothing in the account and prints,
    after the header, exactly the keys that start with the prefix and
    whose newest entry is a version (not a delete marker), each once, in
    lexicographic order; it prints that no object was found exactly when
    there is no such key. The prefix is a prefix of the key, not a
    folder: with [images], as the notebook passes it, a key such as
    [images-old/a.png] is listed too. *)
Theorem folder_listing_within_a_page (w : world state)
    (name prefix : string) (b : RefS3.bucket) :
  buckets (remote w) !! name = Some b →
  length (matching_keys (b_entries b) (Some prefix)) ≤ max_keys →
  ∃ w' keys,
    list_objects_in_folder service name prefix w = (Ok tt, w')
    ∧ remote w' = remote w
    ∧ stdout w'
      = stdout w ++
        (if keys is [] then ["No objects found in folder '" +:+ prefix +:+ "'."]
         else ("Objects with a key that starts with '" +:+ prefix +:+ "':")
              :: keys)
    ∧ StronglySorted String.le keys
    ∧ NoDup keys
    ∧ (∀ k, k ∈ keys ↔
            current (b_entries b) k = true ∧ String.prefix prefix k = true)
    ∧ (keys = [] ↔
       ∀ k, current (b_entries b) k = true → String.prefix prefix k = false).
Proof.
  intros Hb Hlen.
  destruct (list_objects_in_folder_complete w name prefix b Hb Hlen)
    as (keys & Hrun & Hsorted & Hnd & Hkeys).
  eexists _, keys. split; [exact Hrun|]. cbn [after remote stdout].
  split_and!; [done|done|done|done|done|].
  split.
  - intros -> k Hcur. destruct (String.prefix prefix k) eqn:Hpre; [|done].
    by destruct (not_elem_of_nil k); apply Hkeys.
  - intros Hnone. destruct keys as [|k keys]; [done|].
    destruct (proj1 (Hkeys k)) as [Hcur Hpre]; [left|].
    by rewrite (Hnone k Hcur) in Hpre.
Qed.

(** The theorem on a bucket with an image under [images/] and one under
    [images-old/]: the prefix [images] lists both. *)
Lemma folder_listing_within_a_page_witness :
  ∃ w' keys,
    list_objects_in_folder service BUCKET_NAME "images"
      (boot (State ∅
               {[ BUCKET_NAME :=
                    Bucket Enabled
                      [ Entry "images-old/a.png" "1" false "PNG 0" 1;
                        Entry "images/AWS-Logo.png" "0" false "PNG 1" 0 ]
                      None None ]} 2 ∅))
    = (Ok tt, w')
    ∧ stdout w'
      = [] ++ (if keys is [] then ["No objects found in folder 'images'."]
               else "Objects with a key that starts with 'images':" :: keys)
    ∧ ("images-old/a.png" ∈ keys ↔
       current [ Entry "images-old/a.png" "1" false "PNG 0" 1;
                 Entry "images/AWS-Logo.png" "0" false "PNG 1" 0 ]
               "images-old/a.png" = true
       ∧ String.prefix "images" "images-old/a.png" = true).
Proof.
  destruct (folder_listing_within_a_page
              (boot (State ∅
                       {[ BUCKET_NAME :=
                            Bucket Enabled
                              [ Entry "images-old/a.png" "1" false "PNG 0" 1;
                                Entry "images/AWS-Logo.png" "0" false "PNG 1" 0 ]
                              None None ]} 2 ∅))
              BUCKET_NAME "images"
              (Bucket Enabled
                 [ Entry "images-old/a.png" "1" false "PNG 0" 1;
                   Entry "images/AWS-Logo.png" "0" false "PNG 1" 0 ]
                 None None))
    as (w' & keys & Hrun & _ & Hout & _ & _ & Hkeys & _).
  - vm_compute. reflexivity.
  - vm_compute. lia.
  - exists w', keys. split; [exact Hrun|]. split; [exact Hout|]. apply Hkeys.
Defined.

(** *** The account, cell after cell *)

Lemma bind_Ok {S A B} (m : M S A) (k : A → M S B) (w w1 : world S) (a : A) :
  m w = (Ok a, w1) → bind m k w = k a w1.
Proof. unfold bind. by intros ->. Qed.

Lemma length_put_object (b : RefS3.bucket) (k body : string) (t : nat) :
  length (b_entries (put_object b k body t)) ≤ S (length (b_entries b)).
Proof.
  unfold put_object.
  destruct (b_versioning b); cbn [with_entries b_entries length];
    first [lia | apply le_n_S, length_filter].
Qed.

(** One step of the notebook on an account whose local files are [fs],
    whose paths that cannot be written are [ro], and whose buckets are
    [others] and the notebook's bucket [b]. *)
Section Account.
Variables (name : string) (others : gmap string RefS3.bucket).
Variable ro : gset string.
Implicit Types (w : world state) (b : RefS3.bucket) (fs : gmap string string).

Lemma account_create w region fs :
  account ro w fs others → others !! name = None →
  ∃ w', create_s3_bucket service name region w = (Ok tt, w')
        ∧ account ro w' fs (<[name := Bucket Unversioned [] None None]> others).
Proof.
  intros (Hf & Hro & Hb) Hnone.
  rewrite (create_s3_bucket_run _ _ _ _ (Client (Some region))) by done.
  cbn [service svc_create_bucket]. unfold do_create_bucket.
  change (sstate service) with state.
  rewrite Hb, Hnone.
  eexists. split; [done|]. by cbn.
Qed.

Lemma account_upload w fs b path k body :
  account ro w fs (<[name := b]> others) → fs !! path = Some body →
  ∃ w' t, upload_file_to_s3 service path name k w = (Ok tt, w')
          ∧ account ro w' fs (<[name := put_object b k body t]> others).
Proof.
  intros (Hf & Hro & Hb) Hpath.
  rewrite (upload_file_to_s3_run _ _ _ _ _ (Client None)) by done.
  cbn [service svc_upload_file]. unfold do_upload_file.
  change (sstate service) with state.
  rewrite Hf, Hpath, Hb, lookup_insert_eq.
  eexists _, _. split; [done|]. unfold account. cbn.
  by rewrite ?Hf, ?insert_insert_eq.
Qed.

Lemma account_download w fs b k path e :
  account ro w fs (<[name := b]> others) →
  latest (b_entries b) k = Some e → e_marker e = false →
  writable (remote w) path = true →
  ∃ w', download_object_from_s3 service name k path w = (Ok tt, w')
        ∧ account ro w' (<[path := e_body e]> fs) (<[name := b]> others).
Proof.
  intros (Hf & Hro & Hb) Hlatest Hmarker Hw.
  rewrite (download_object_from_s3_run _ _ _ _ _ (Client None)) by done.
  cbn [service svc_download_file]. unfold do_download_file.
  change (sstate service) with state.
  rewrite Hb, lookup_insert_eq, Hlatest, Hmarker, Hw.
  eexists. split; [done|]. unfold account. cbn. by rewrite ?Hf.
Qed.

Lemma account_read_back w fs bs path body
    (json_loads : string → result json) (str_json : json → string) j :
  account ro w fs bs → fs !! path = Some body → json_loads body = Ok j →
  ∃ w', (content <- open_read service path;;
         json_content <- (λ w, (json_loads content, w));;
         print (str_json json_content))%py w = (Ok tt, w')
        ∧ account ro w' fs bs.
Proof.
  intros (Hf & Hro & Hb) Hpath Hj.
  unfold bind, open_read, print. cbn [service svc_open_read].
  unfold do_open_read. change (sstate service) with state.
  rewrite Hf, Hpath, Hj. by eexists.
Qed.

Lemma account_public_access w fs b cfg :
  account ro w fs (<[name := b]> others) →
  ∃ w', s3_public_access_setup service name cfg w = (Ok tt, w')
        ∧ account ro w' fs
            (<[name := Bucket (b_versioning b) (b_entries b) (Some cfg)
                              (b_policy b)]> others).
Proof.
  intros (Hf & Hro & Hb).
  rewrite (s3_public_access_setup_run _ _ _ _ (Client None)) by done.
  cbn [service svc_put_public_access_block].
  unfold do_put_public_access_block, update_bucket.
  change (sstate service) with state. rewrite Hb, lookup_insert_eq.
  eexists. split; [done|]. unfold account. cbn.
  by rewrite ?Hf, ?insert_insert_eq.
Qed.

Lemma account_policy w fs b json_dumps policy :
  account ro w fs (<[name := b]> others) →
  ∃ w', s3_put_bucket_policy service json_dumps name policy w = (Ok (ok 200), w')
        ∧ account ro w' fs
            (<[name := Bucket (b_versioning b) (b_entries b) (b_access b)
                              (Some (json_dumps policy))]> others).
Proof.
  intros (Hf & Hro & Hb).
  rewrite (s3_put_bucket_policy_run _ _ _ _ _ (Client None)) by done.
  cbn [service svc_put_bucket_policy].
  unfold do_put_bucket_policy, update_bucket.
  change (sstate service) with state. rewrite Hb, lookup_insert_eq.
  eexists. split; [done|]. unfold account. cbn.
  by rewrite ?Hf, ?insert_insert_eq.
Qed.

Lemma account_versioning w fs b :
  account ro w fs (<[name := b]> others) →
  ∃ w', configure_bucket_versioning service name versioning_config w
        = (Ok (ok 200), w')
        ∧ account ro w' fs
            (<[name := Bucket Enabled (b_entries b) (b_access b) (b_policy b)]>
               others).
Proof.
  intros (Hf & Hro & Hb).
  rewrite (configure_bucket_versioning_run _ _ _ _ (Client None)) by done.
  cbn [service svc_put_bucket_versioning].
  unfold do_put_bucket_versioning, update_bucket. cbn [versioning_config Status].
  rewrite bool_decide_eq_true_2 by done.
  change (sstate service) with state. rewrite Hb, lookup_insert_eq.
  eexists. split; [done|]. unfold account. cbn.
  by rewrite ?Hf, ?insert_insert_eq.
Qed.

Lemma account_list_objects w fs b prefix :
  account ro w fs (<[name := b]> others) →
  ∃ w', list_objects_in_folder service name prefix w = (Ok tt, w')
        ∧ account ro w' fs (<[name := b]> others).
Proof.
  intros (Hf & Hro & Hb).
  rewrite (list_objects_in_folder_page _ _ _ b)
    by (rewrite Hb; apply lookup_insert_eq).
  eexists. split; [done|]. by unfold account.
Qed.

Lemma account_list_versions w fs b prefix :
  account ro w fs (<[name := b]> others) →
  ∃ w', list_object_versions service name prefix w = (Ok tt, w')
        ∧ account ro w' fs (<[name := b]> others).
Proof.
  intros (Hf & Hro & Hb).
  rewrite (list_object_versions_page _ _ _ b)
    by (rewrite Hb; apply lookup_insert_eq).
  eexists. split; [done|]. by unfold account.
Qed.

Lemma account_purge w fs b :
  account ro w fs (<[name := b]> others) →
  others !! name = None →
  length (b_entries b) ≤ max_keys →
  ∃ w', s3_delete_bucket service name true w = (Ok (ok 204), w')
        ∧ account ro w' fs others.
Proof.
  intros (Hf & Hro & Hb) Hnone Hlen.
  pose proof (s3_delete_bucket_purge_run w name b) as Hrun.
  rewrite Hb, lookup_insert_eq in Hrun. specialize (Hrun eq_refl).
  cbn zeta in Hrun. rewrite strike_all in Hrun by done.
  eexists. split; [exact Hrun|]. unfold account. cbn.
  split; [done|]. split; [done|].
  by rewrite Hb, insert_insert_eq, delete_insert_id.
Qed.

Lemma account_print {A} (m : M state A) (f : A → string) w w1 a fs bs :
  m w = (Ok a, w1) → account ro w1 fs bs →
  ∃ w2, bind m (λ r, print (f r)) w = (Ok tt, w2) ∧ account ro w2 fs bs.
Proof. intros Hm Hacc. rewrite (bind_Ok _ _ _ _ _ Hm). by eexists. Qed.
End Account.

(** X13: the notebook's Python cells from top to bottom on the reference
    model of the service: on an account that has the four data files and
    no bucket of the notebook's name, where a file can be written at the
    download path and the JSON file holds a text that [json.loads]
    accepts, every cell returns normally, and at the end the account has
    the buckets it had before (the notebook's bucket is gone with
    everything stored in it) and its local files are as before except
    for the downloaded copy, which holds the bytes of the JSON file. *)
Theorem notebook_leaves_the_account_as_found (w : world state)
    (json_dumps : json → string) (str_response : ResponseMetadata → string)
    (json_loads : string → result json) (str_json : json → string)
    (csv js png1 png2 : string) (j : json) :
  buckets (remote w) !! BUCKET_NAME = None →
  files (remote w) !! local_file_path = Some csv →
  files (remote w) !! local_file_path_json = Some js →
  files (remote w) !! local_file_path_image_v1 = Some png1 →
  files (remote w) !! local_file_path_image_v2 = Some png2 →
  writable (remote w) local_file_path_13 = true →
  json_loads js = Ok j →
  ∃ w',
    notebook service json_dumps str_response json_loads str_json w
    = (Ok tt, w')
    ∧ files (remote w') = <[local_file_path_13 := js]> (files (remote w))
    ∧ buckets (remote w') = buckets (remote w).
Proof.
  intros Hnone Hcsv Hjs Hpng1 Hpng2 Hw Hj.
  set (fs := files (remote w)) in *. set (others := buckets (remote w)) in *.
  set (ro := readonly (remote w)) in *.
  assert (∀ w1, readonly (remote w1) = ro →
                writable (remote w1) local_file_path_13 = true) as Hw'.
  { intros w1 Hro. revert Hw. unfold writable. by rewrite Hro. }
  unfold notebook, cells_before_delete, cell_4, cell_8, cell_10, cell_13,
    cell_14, cell_16, cell_19, cell_20, cell_versioning, cell_image_v2,
    cell_list_objects, cell_list_versions, cell_delete.
  destruct (account_create BUCKET_NAME others ro w AWS_DEFAULT_REGION fs)
    as (w1 & H1 & A1); [done|done|].
  destruct (account_upload BUCKET_NAME others ro w1 fs _ local_file_path
              object_key csv A1 Hcsv) as (w2 & t2 & H2 & A2).
  destruct (account_upload BUCKET_NAME others ro w2 fs _ local_file_path_json
              object_key_json js A2 Hjs) as (w3 & t3 & H3 & A3).
  set (b3 := put_object _ object_key_json js t3) in *.
  destruct (put_object_entries (put_object (Bucket Unversioned [] None None)
                                           object_key csv t2)
                               object_key_json js t3) as (old & Hb3 & _).
  fold b3 in Hb3.
  destruct (account_download BUCKET_NAME others ro w3 fs b3 object_key_json
              local_file_path_13
              (Entry object_key_json
                     (put_vid (put_object (Bucket Unversioned [] None None)
                                          object_key csv t2) t3)
                     false js t3)
              A3) as (w4 & H4 & A4).
  { rewrite Hb3. apply (latest_cons_eq (Entry object_key_json _ false js t3)). }
  { done. }
  { apply Hw', A3. }
  cbn [e_body] in A4.
  set (fs' := <[local_file_path_13 := js]> fs) in *.
  destruct (account_read_back ro w4 fs' _ local_file_path_13 js json_loads
              str_json j A4) as (w4' & H4' & A4'); [apply lookup_insert_eq|done|].
  destruct (account_public_access BUCKET_NAME others ro w4' fs' b3
              public_access_configuration A4') as (w5 & H5 & A5).
  destruct (account_policy BUCKET_NAME others ro w5 fs' _ json_dumps policy A5)
    as (w6 & H6 & A6).
  destruct (account_print ro _ str_response _ _ _ _ _ H6 A6)
    as (w6' & H6' & A6').
  destruct (account_upload BUCKET_NAME others ro w6' fs' _
              local_file_path_image_v1 object_key_image png1 A6')
    as (w7 & t7 & H7 & A7).
  { unfold fs'. by rewrite lookup_insert_ne. }
  destruct (account_versioning BUCKET_NAME others ro w7 fs' _ A7)
    as (w8 & H8 & A8).
  destruct (account_print ro _ str_response _ _ _ _ _ H8 A8)
    as (w8' & H8' & A8').
  destruct (account_upload BUCKET_NAME others ro w8' fs' _
              local_file_path_image_v2 object_key_image png2 A8')
    as (w9 & t9 & H9 & A9).
  { unfold fs'. by rewrite lookup_insert_ne. }
  destruct (account_list_objects BUCKET_NAME others ro w9 fs' _ "images" A9)
    as (w10 & H10 & A10).
  destruct (account_list_versions BUCKET_NAME others ro w10 fs' _ "images/"
              A10) as (w11 & H11 & A11).
  destruct (account_purge BUCKET_NAME others ro w11 fs' _ A11 Hnone)
    as (w12 & H12 & A12).
  { cbn [b_entries].
    etrans; [apply length_put_object|]. cbn [b_entries].
    etrans; [apply le_n_S, length_put_object|]. cbn [b_entries].
    etrans; [apply le_n_S, le_n_S, length_put_object|].
    etrans; [apply le_n_S, le_n_S, le_n_S, length_put_object|].
    cbn [b_entries length]. unfold max_keys. lia. }
  destruct (account_print ro _ str_response _ _ _ _ _ H12 A12)
    as (w' & Hlast & (Hf & _ & Hb)).
  exists w'. split; [|done].
  change (sstate service) with state in *.
  rewrite <- Hlast. unfold bind at 1.
  rewrite (bind_Ok _ _ _ _ _ H1), (bind_Ok _ _ _ _ _ H2),
    (bind_Ok _ _ _ _ _ H3), (bind_Ok _ _ _ _ _ H4), (bind_Ok _ _ _ _ _ H4'),
    (bind_Ok _ _ _ _ _ H5), (bind_Ok _ _ _ _ _ H6'), (bind_Ok _ _ _ _ _ H7),
    (bind_Ok _ _ _ _ _ H8'), (bind_Ok _ _ _ _ _ H9), (bind_Ok _ _ _ _ _ H10).
  by rewrite H11.
Qed.

(** The theorem on the lab's account before the notebook runs. *)
Lemma notebook_leaves_the_account_as_found_witness :
  ∃ w',
    notebook service (λ _, "{}") (λ r, pretty (HTTPStatusCode r))
             (λ _, Ok (JDict [])) (λ _, "{}") (boot before_lab)
    = (Ok tt, w')
    ∧ files (remote w') = <[local_file_path_13 := "{}"]> (files before_lab)
    ∧ buckets (remote w') = ∅.
Proof.
  apply (notebook_leaves_the_account_as_found (boot before_lab) (λ _, "{}")
           (λ r, pretty (HTTPStatusCode r)) (λ _, Ok (JDict [])) (λ _, "{}")
           "user,item,rating" "{}" "PNG 1" "PNG 2" (JDict []));
    vm_compute; reflexivity.
Defined.
